(** * QuantumBlockchain: hash-chained ledger, replication and transaction ordering

    A shallow embedding of the four Python programs of the repository
    ([Quantumeth.py], [qtp.py], [quantumblockchainnetworkcosmos.py],
    [quantumsolanaalgorithm.py]) and the properties of their block-chaining
    engine, replication fabric and brute-force transaction optimizer.

    Conventions.
    - A Python [str] is held as the bytes of its UTF-8 encoding (a Rocq
      [string]); [s.encode()] is then the identity and string concatenation
      is byte concatenation.
    - Objects that are mutated through several references (the nodes, reached
      from [QuantumNetwork.nodes] and from [QuantumCloud.connected_nodes]) live
      in a store and are named by their position in it.
    - A method is a function from the state it runs in to an outcome (a
      returned value or a raised exception) and the state it leaves. *)

From Stdlib Require Import ZArith List String Ascii DecimalString Permutation Sorted Lia.
From stdpp Require Import base tactics option list strings.

Import ListNotations.
Local Open Scope string_scope.
Local Open Scope list_scope.

(** ** hashlib.sha256(...).hexdigest()  (FIPS 180-4) *)

Module Sha256.
Local Open Scope Z_scope.

Definition mask32 : Z := 0xffffffff.
Definition add32 (x y : Z) : Z := Z.land (x + y) mask32.
Definition rotr (n x : Z) : Z :=
  Z.lor (Z.shiftr x n) (Z.land (Z.shiftl x (32 - n)) mask32).
Definition shr (n x : Z) : Z := Z.shiftr x n.
Definition not32 (x : Z) : Z := Z.lxor x mask32.

Definition Ch (x y z : Z) : Z := Z.lxor (Z.land x y) (Z.land (not32 x) z).
Definition Maj (x y z : Z) : Z :=
  Z.lxor (Z.lxor (Z.land x y) (Z.land x z)) (Z.land y z).
Definition bsig0 (x : Z) : Z := Z.lxor (Z.lxor (rotr 2 x) (rotr 13 x)) (rotr 22 x).
Definition bsig1 (x : Z) : Z := Z.lxor (Z.lxor (rotr 6 x) (rotr 11 x)) (rotr 25 x).
Definition ssig0 (x : Z) : Z := Z.lxor (Z.lxor (rotr 7 x) (rotr 18 x)) (shr 3 x).
Definition ssig1 (x : Z) : Z := Z.lxor (Z.lxor (rotr 17 x) (rotr 19 x)) (shr 10 x).

(** The constants are the first 32 bits of the fractional parts of the cube
    roots (round constants) and of the square roots (initial hash value) of
    the first primes. *)
Definition is_prime (n : nat) : bool :=
  forallb (fun d => negb (n mod d =? 0)%nat) (seq 2 (n - 2)).

Definition primes (count : nat) : list Z :=
  map Z.of_nat (firstn count (filter is_prime (seq 2 400))).

(** The integer cube root, found bit by bit from the top. *)
Definition icbrt (n : Z) : Z :=
  fold_left
    (fun r k =>
       let r' := Z.lor r (Z.shiftl 1 (Z.of_nat k)) in
       if r' * r' * r' <=? n then r' else r)
    (rev (seq 0 36)) 0.

Definition K : list Z :=
  Eval vm_compute in
    map (fun p => Z.land (icbrt (Z.shiftl p 96)) mask32) (primes 64).

Definition H0 : list Z :=
  Eval vm_compute in
    map (fun p => Z.land (Z.sqrt (Z.shiftl p 64)) mask32) (primes 8).

(** Padding: the message, a 1 bit, zeros up to 56 mod 64 bytes, and the bit
    length of the message as a 64-bit big-endian integer. *)
Definition be_bytes (n : nat) (x : Z) : list Z :=
  map (fun i => Z.land (Z.shiftr x (8 * Z.of_nat i)) 0xff) (rev (seq 0 n)).

Definition pad (msg : list Z) : list Z :=
  let len := Z.of_nat (length msg) in
  msg ++ [0x80] ++ repeat 0 (Z.to_nat ((55 - len) mod 64)) ++ be_bytes 8 (8 * len).

Definition be_word (bs : list Z) : Z :=
  fold_left (fun acc b => Z.lor (Z.shiftl acc 8) b) bs 0.

Fixpoint chunks {A} (fuel k : nat) (l : list A) : list (list A) :=
  match fuel, l with
  | O, _ | _, [] => []
  | S fuel', _ => firstn k l :: chunks fuel' k (skipn k l)
  end.

Definition words_of_block (block : list Z) : list Z :=
  map be_word (chunks 16 4 block).

(** Message schedule; [w] holds the words computed so far, the latest first. *)
Fixpoint schedule (n : nat) (w : list Z) : list Z :=
  match n with
  | O => rev w
  | S n' =>
      let x := add32 (add32 (ssig1 (nth 1 w 0)) (nth 6 w 0))
                     (add32 (ssig0 (nth 14 w 0)) (nth 15 w 0)) in
      schedule n' (x :: w)
  end.

Definition round (st : list Z) (kw : Z * Z) : list Z :=
  match st with
  | [a; b; c; d; e; f; g; h] =>
      let t1 := add32 (add32 (add32 h (bsig1 e)) (add32 (Ch e f g) (fst kw))) (snd kw) in
      let t2 := add32 (bsig0 a) (Maj a b c) in
      [add32 t1 t2; a; b; c; add32 d t1; e; f; g]
  | _ => st
  end.

Definition compress (hs block : list Z) : list Z :=
  let w := schedule 48 (rev (words_of_block block)) in
  let st := fold_left round (combine K w) hs in
  map (fun p => add32 (fst p) (snd p)) (combine hs st).

Definition digest_words (msg : list Z) : list Z :=
  let padded := pad msg in
  fold_left compress (chunks (length padded) 64 padded) H0.

Definition hex_digit (d : Z) : ascii :=
  nth (Z.to_nat d)
      ["0";"1";"2";"3";"4";"5";"6";"7";"8";"9";"a";"b";"c";"d";"e";"f"]%char "0"%char.

Definition hex_of_word (x : Z) : string :=
  string_of_list_ascii
    (map (fun i => hex_digit (Z.land (Z.shiftr x (4 * Z.of_nat i)) 0xf)) (rev (seq 0 8))).

Definition bytes_of_string (s : string) : list Z :=
  map (fun c => Z.of_N (N_of_ascii c)) (list_ascii_of_string s).

Definition hexdigest (s : string) : string :=
  String.concat "" (map hex_of_word (digest_words (bytes_of_string s))).

End Sha256.

(** [hashlib.sha256(s.encode()).hexdigest()] *)
Definition sha256_hexdigest (s : string) : string := Sha256.hexdigest s.

Arguments sha256_hexdigest : simpl never.

(** ** Outcomes of a call *)

Inductive exn : Type :=
| IndexError (msg : string)
| ValueError (msg : string)
| AttributeError (msg : string)
| ConnectorError (msg : string).

Inductive outcome (A : Type) : Type :=
| Returned (a : A)
| Raised (e : exn).
Arguments Returned {A} a.
Arguments Raised {A} e.

(** [s * n] on strings. *)
Definition str_mul (s : string) (n : nat) : string := String.concat "" (repeat s n).

(** ['0' * 64], the previous hash of a first block. *)
Definition genesis_hash : string := str_mul "0" 64.

(** [''.join(f'{abs(amplitude):.4f}' for amplitude in state_vector)] for the
    circuit the cirq files simulate: Hadamard on each of four qubits leaves
    amplitude 1/4 on each of the sixteen basis states, the two CNOTs permute
    basis states, and S and T multiply amplitudes by phases, so each absolute
    value is 0.25 up to the rounding of the simulator and prints, to four
    decimals, as [0.2500]. The circuit takes no input: the string is the same
    at every call. *)
Definition state_str : string := str_mul "0.2500" 16.

(** ** itertools.permutations

    The tuples come out in lexicographic order of the positions of the input:
    every position in turn supplies the first element, followed by each
    permutation of the remaining positions. Equal elements at different
    positions are told apart, so an input of length n always gives n!
    tuples. *)

Module itertools.

(** Every element of [l] with the elements at the other positions, by
    increasing position. *)
Fixpoint picks {A} (l : list A) : list (A * list A) :=
  match l with
  | [] => []
  | x :: xs => (x, xs) :: map (fun p => (fst p, x :: snd p)) (picks xs)
  end.

Fixpoint perms {A} (r : nat) (l : list A) : list (list A) :=
  match r with
  | O => [[]]
  | S r' => flat_map (fun p => map (cons (fst p)) (perms r' (snd p))) (picks l)
  end.

Definition permutations {A} (iterable : list A) : list (list A) :=
  perms (length iterable) iterable.

End itertools.

(** ** The built-in hash() of a str. CPython (3.11 and later) runs
    SipHash-1-3 over the characters as the interpreter stores them, keyed by
    a secret that the process fixes when it starts: the value of [hash(s)]
    is one integer for the life of a process and another in the next. *)

Module Pyhash.
Local Open Scope Z_scope.

Definition u64 (x : Z) : Z := x mod 2 ^ 64.

Definition rotl (x b : Z) : Z := u64 (Z.lor (Z.shiftl x b) (Z.shiftr x (64 - b))).

(** The four words of the SipHash state. *)
Definition lanes : Type := Z * Z * Z * Z.

(** [HALF_ROUND(a, b, c, d, s, t)] *)
Definition half_round (s t : Z) (v : lanes) : lanes :=
  let '(a, b, c, d) := v in
  let a := u64 (a + b) in
  let c := u64 (c + d) in
  let b := Z.lxor (rotl b s) a in
  let d := Z.lxor (rotl d t) c in
  (rotl a 32, b, c, d).

(** [SINGLE_ROUND]: the second half round works on the lanes as
    [(v2, v1, v0, v3)]. *)
Definition single_round (v : lanes) : lanes :=
  let '(v0, v1, v2, v3) := half_round 13 16 v in
  let '(v2, v1, v0, v3) := half_round 17 21 (v2, v1, v0, v3) in
  (v0, v1, v2, v3).

(** A little-endian word of up to eight bytes. *)
Definition le_word (bs : list Z) : Z :=
  fold_right (fun b acc => Z.lor b (Z.shiftl acc 8)) 0 bs.

Definition mix (m : Z) (v : lanes) : lanes :=
  let '(v0, v1, v2, v3) := v in
  let '(v0, v1, v2, v3) := single_round (v0, v1, v2, Z.lxor v3 m) in
  (Z.lxor v0 m, v1, v2, v3).

(** The whole words of the input go through one round each; what is left,
    fewer than eight bytes, is returned with the state. *)
Fixpoint absorb (v : lanes) (src : list Z) : lanes * list Z :=
  match src with
  | b0 :: b1 :: b2 :: b3 :: b4 :: b5 :: b6 :: b7 :: rest =>
      absorb (mix (le_word [b0; b1; b2; b3; b4; b5; b6; b7]) v) rest
  | _ => (v, src)
  end.

Definition siphash13 (k0 k1 : Z) (src : list Z) : Z :=
  let v := (Z.lxor k0 0x736f6d6570736575, Z.lxor k1 0x646f72616e646f6d,
            Z.lxor k0 0x6c7967656e657261, Z.lxor k1 0x7465646279746573) in
  let '(v, tail) := absorb v src in
  let b := Z.lor (u64 (Z.shiftl (Z.of_nat (List.length src)) 56)) (le_word tail) in
  let '(v0, v1, v2, v3) := mix b v in
  let '(v0, v1, v2, v3) :=
    single_round (single_round (single_round (v0, v1, Z.lxor v2 0xff, v3))) in
  Z.lxor (Z.lxor v0 v1) (Z.lxor v2 v3).

(** The code points of a text held as UTF-8. *)
Fixpoint code_points (bs : list Z) : list Z :=
  match bs with
  | [] => []
  | b0 :: rest =>
      if b0 <? 0x80 then b0 :: code_points rest
      else
        match rest with
        | [] => [b0]
        | b1 :: rest1 =>
            let c1 := Z.land b1 0x3f in
            if b0 <? 0xe0 then
              Z.lor (Z.shiftl (Z.land b0 0x1f) 6) c1 :: code_points rest1
            else
              match rest1 with
              | [] => [b0]
              | b2 :: rest2 =>
                  let c2 := Z.land b2 0x3f in
                  if b0 <? 0xf0 then
                    Z.lor (Z.shiftl (Z.land b0 0x0f) 12) (Z.lor (Z.shiftl c1 6) c2)
                    :: code_points rest2
                  else
                    match rest2 with
                    | [] => [b0]
                    | b3 :: rest3 =>
                        Z.lor (Z.shiftl (Z.land b0 0x07) 18)
                          (Z.lor (Z.shiftl c1 12) (Z.lor (Z.shiftl c2 6) (Z.land b3 0x3f)))
                        :: code_points rest3
                    end
              end
        end
  end.

(** A str is stored with one, two or four bytes for each character, the
    least width that holds its largest code point; the hash runs over that
    buffer (little-endian machine). *)
Definition width (cps : list Z) : nat :=
  let top := fold_right Z.max 0 cps in
  if top <? 0x100 then 1%nat else if top <? 0x10000 then 2%nat else 4%nat.

Definition le_bytes (n : nat) (x : Z) : list Z :=
  map (fun i => Z.land (Z.shiftr x (8 * Z.of_nat i)) 0xff) (seq 0 n).

Definition buffer (s : string) : list Z :=
  let cps :=
    code_points (map (fun c => Z.of_N (N_of_ascii c)) (list_ascii_of_string s)) in
  flat_map (le_bytes (width cps)) cps.

(** The secret of a process: the two keys of [_Py_HashSecret.siphash]. *)
Record HashSecret : Type := mkHashSecret { k0 : Z; k1 : Z }.

(** The result as a signed 64-bit integer. *)
Definition signed64 (x : Z) : Z := if x <? 2 ^ 63 then x else x - 2 ^ 64.

(** [hash(s)] for a str: 0 for the empty text, and -1 is never returned. *)
Definition str_hash (secret : HashSecret) (s : string) : Z :=
  match buffer s with
  | [] => 0
  | src =>
      let x := signed64 (siphash13 (k0 secret) (k1 secret) src) in
      if x =? -1 then -2 else x
  end.

(** The secret of a process started with [PYTHONHASHSEED=seed]: all zero for
    seed 0, and otherwise the bytes of a linear congruential generator on
    32 bits, started at the seed. Without the variable the secret is drawn
    from the system's random source. *)
Fixpoint lcg_urandom (n : nat) (x : Z) : list Z :=
  match n with
  | O => []
  | S n' =>
      let x := (x * 214013 + 2531011) mod 2 ^ 32 in
      Z.land (Z.shiftr x 16) 0xff :: lcg_urandom n' x
  end.

Definition secret_of_seed (seed : Z) : HashSecret :=
  if seed =? 0 then mkHashSecret 0 0
  else
    let bs := lcg_urandom 16 seed in
    mkHashSecret (le_word (firstn 8 bs)) (le_word (skipn 8 bs)).

End Pyhash.

(** ** Quantumeth.py (quantumsolanaalgorithm.py has the same node, cloud,
    add_block, validate_chain and optimizer) *)

Module Quantumeth.

(** [block = {"transactions": ..., "previous_hash": ..., "hash": ...}] *)
Record Block : Type := mkBlock {
  transactions : list string;
  previous_hash : string;
  hash : string
}.

Record QuantumNode : Type := mkNode {
  node_id : nat;
  chain : list Block
}.

(** A reference to a node is its position in [QuantumNetwork.nodes], the list
    that creates the node objects and is never changed afterwards. *)
Definition node_ref := nat.

Record QuantumCloud : Type := mkCloud {
  connected_nodes : list node_ref
}.

(** [self.web3.eth.contract(address=..., abi=...)] *)
Record Contract : Type := mkContract {
  address : string;
  abi : string
}.

Record QuantumNetwork : Type := mkNetwork {
  cloud : QuantumCloud;
  nodes : list QuantumNode;
  global_chain : list Block;
  web3 : string;  (* the provider URL the client was built from *)
  contract : option Contract
}.

(** *** QuantumCloud *)

Definition QuantumCloud_init : QuantumCloud := {| connected_nodes := [] |}.

Definition connect_node (self : QuantumCloud) (node : node_ref) : QuantumCloud :=
  {| connected_nodes := connected_nodes self ++ [node] |}.

(** [node.chain.append(block)] *)
Definition chain_append (block : Block) (node : QuantumNode) : QuantumNode :=
  {| node_id := node_id node; chain := chain node ++ [block] |}.

(** [for node in self.connected_nodes: node.chain.append(block)], acting on the
    store the references point into. A node registered twice is appended to
    twice. Every reference the constructor registers is a position of the
    store; [alter] leaves the store as it is at a position outside it, which
    does not arise. *)
Definition broadcast (self : QuantumCloud) (block : Block)
    (store : list QuantumNode) : list QuantumNode :=
  fold_left (fun st node => alter (chain_append block) node st)
            (connected_nodes self) store.

(** *** QuantumNode *)

Definition QuantumNode_init (node_id : nat) : QuantumNode :=
  {| node_id := node_id; chain := [] |}.

Definition generate_quantum_hash (data : string) : string :=
  let combined_data := (data +:+ state_str) in
  sha256_hexdigest combined_data.

Definition create_block (self : QuantumNode) (transactions : list string)
    (previous_hash : string) : Block * QuantumNode :=
  let data := (String.concat "" transactions +:+ previous_hash) in
  let block_hash := generate_quantum_hash data in
  let block := {| transactions := transactions;
                  previous_hash := previous_hash;
                  hash := block_hash |} in
  (block, chain_append block self).

(** *** QuantumNetwork *)

Definition QuantumNetwork_init (num_nodes : nat) (ethereum_url : string) : QuantumNetwork :=
  let nodes := map QuantumNode_init (seq 0 num_nodes) in
  let cloud := fold_left connect_node (seq 0 (length nodes)) QuantumCloud_init in
  {| cloud := cloud; nodes := nodes; global_chain := [];
     web3 := ethereum_url; contract := None |}.

Definition set_nodes (self : QuantumNetwork) (ns : list QuantumNode) : QuantumNetwork :=
  {| cloud := cloud self; nodes := ns; global_chain := global_chain self;
     web3 := web3 self; contract := contract self |}.

Definition set_global_chain (self : QuantumNetwork) (c : list Block) : QuantumNetwork :=
  {| cloud := cloud self; nodes := nodes self; global_chain := c;
     web3 := web3 self; contract := contract self |}.

(** The method has no [return]: a call that completes yields Python's [None],
    written [None] here; a call yielding a block would be [Some block].
    [self.nodes[0]] raises IndexError on a network built with no node, before
    anything is changed. *)
Definition add_block (transactions : list string) (self : QuantumNetwork)
    : outcome (option Block) * QuantumNetwork :=
  let previous_hash :=
    match last (global_chain self) with
    | Some b => hash b
    | None => genesis_hash
    end in
  match nodes self !! 0%nat with
  | None => (Raised (IndexError "list index out of range"), self)
  | Some node0 =>
      let '(new_block, node0') := create_block node0 transactions previous_hash in
      let self := set_nodes self (<[0%nat := node0']> (nodes self)) in
      let self := set_global_chain self (global_chain self ++ [new_block]) in
      let self := set_nodes self (broadcast (cloud self) new_block (nodes self)) in
      (Returned None, self)
  end.

(** One pass of the loop body of [validate_chain] at index [i]: [Some false] is
    [return False], [None] falls through to the next index. An index outside
    the list would raise IndexError. *)
Definition link_check (chain : list Block) (i : nat) : outcome (option bool) :=
  match chain !! i, chain !! (i - 1)%nat with
  | Some b, Some p =>
      if decide (previous_hash b <> hash p) then Returned (Some false)
      else Returned None
  | _, _ => Raised (IndexError "list index out of range")
  end.

Fixpoint validate_loop (chain : list Block) (range : list nat) : outcome bool :=
  match range with
  | [] => Returned true
  | i :: range' =>
      match link_check chain i with
      | Returned (Some r) => Returned r
      | Returned None => validate_loop chain range'
      | Raised e => Raised e
      end
  end.

(** [for i in range(1, len(self.global_chain)): ...; return True] *)
Definition validate_chain (self : QuantumNetwork) : outcome bool * QuantumNetwork :=
  (validate_loop (global_chain self)
     (seq 1 (length (global_chain self) - 1)), self).

(** A script calling [add_block] once per batch; an exception ends it. *)
Fixpoint add_blocks (batches : list (list string)) (self : QuantumNetwork)
    : outcome unit * QuantumNetwork :=
  match batches with
  | [] => (Returned tt, self)
  | transactions :: rest =>
      match add_block transactions self with
      | (Returned _, self') => add_blocks rest self'
      | (Raised e, self') => (Raised e, self')
      end
  end.

(** *** optimize_transaction_order *)

Section Optimizer.

(** Python's built-in [hash] on a [str]: one integer per text for the life of
    the process that runs the call. *)
Variable builtin_hash : string -> Z.

(** [for i in range(len(order) - 1): cost += abs(hash(order[i]) - hash(order[i + 1]))];
    the indices stay inside [order], the default of [nth] is never read. *)
Definition calculate_cost (order : list string) : Z :=
  fold_left
    (fun cost i =>
       (cost + Z.abs (builtin_hash (nth i order "") - builtin_hash (nth (i + 1) order "")))%Z)
    (seq 0 (length order - 1)) 0%Z.

(** [cost < best_cost], where [best_cost] starts as [float('inf')] ([None]). *)
Definition lt_best (cost : Z) (best_cost : option Z) : bool :=
  match best_cost with
  | None => true
  | Some c => (cost <? c)%Z
  end.

(** The loop body, on the pair [(best_order, best_cost)]. *)
Definition optimize_step (best : list string * option Z) (order : list string)
    : list string * option Z :=
  let cost := calculate_cost order in
  if lt_best cost (snd best) then (order, Some cost) else best.

Definition optimize_transaction_order (transactions : list string) : list string :=
  let best :=
    fold_left optimize_step (itertools.permutations transactions) (transactions, None) in
  fst best.

End Optimizer.

(** *** Ledger operations

    The web3 client is an outside collaborator: each of its calls takes the
    state of the outside ledger to a reply and a new state. A failure inside
    the client surfaces as an exception of the client's own. The [print]
    calls of the methods are left out. *)

Inductive reply (A : Type) : Type :=
| Ok (a : A)
| Fail (msg : string).
Arguments Ok {A} a.
Arguments Fail {A} msg.

Record TxParams : Type := mkTxParams {
  tx_from : string;
  tx_nonce : Z;
  tx_gas : Z;
  tx_gasPrice : Z
}.

Section Ledger.

Variables World Tx SignedTx TxHash : Type.

Variable get_transaction_count : string -> World -> reply Z * World.
Variable gas_price : World -> reply Z * World.
Variable estimate_gas : Tx -> World -> reply Z * World.
(** [contract.functions.transfer(recipient, amount).build_transaction(params)] *)
Variable build_transfer : Contract -> string -> Z -> TxParams -> World -> reply Tx * World.
Variable sign_transaction : Tx -> string -> World -> reply SignedTx * World.
(** [send_raw_transaction(signed_tx.rawTransaction)] *)
Variable send_raw_transaction : SignedTx -> World -> reply TxHash * World.

Definition L (A : Type) : Type := World -> outcome A * World.

Definition ret {A} (a : A) : L A := fun w => (Returned a, w).
Definition raise {A} (e : exn) : L A := fun w => (Raised e, w).
Definition bind {A B} (c : L A) (k : A -> L B) : L B :=
  fun w =>
    match c w with
    | (Returned a, w') => k a w'
    | (Raised e, w') => (Raised e, w')
    end.
Definition call {A} (c : World -> reply A * World) : L A :=
  fun w =>
    match c w with
    | (Ok a, w') => (Returned a, w')
    | (Fail msg, w') => (Raised (ConnectorError msg), w')
    end.

Notation "'let*' x ':=' c 'in' k" := (bind c (fun x => k))
  (at level 10, x name, c at level 100, k at level 200).

(** [self.web3.to_wei('50', 'gwei')] *)
Definition fifty_gwei : Z := 50000000000%Z.

Definition calculate_gas (self : QuantumNetwork) (transaction : Tx) : L Z :=
  let* estimated_gas := call (estimate_gas transaction) in
  let* gas_price := call gas_price in
  ret (estimated_gas * gas_price)%Z.

Definition create_transaction (self : QuantumNetwork)
    (sender_address recipient_address : string) (amount : Z) (private_key : string)
    : L TxHash :=
  match contract self with
  | None => raise (ValueError "ERC20 contract not deployed.")
  | Some c =>
      let* nonce := call (get_transaction_count sender_address) in
      let* price := call gas_price in
      let* tx := call (build_transfer c recipient_address amount
                    {| tx_from := sender_address; tx_nonce := nonce;
                       tx_gas := 100000; tx_gasPrice := price |}) in
      let* gas_cost := calculate_gas self tx in
      let* signed_tx := call (sign_transaction tx private_key) in
      let* tx_hash := call (send_raw_transaction signed_tx) in
      ret tx_hash
  end.

Definition transfer_erc20 (self : QuantumNetwork)
    (recipient : string) (amount : Z) (sender_address private_key : string)
    : L unit :=
  match contract self with
  | None => raise (ValueError "ERC20 contract not deployed.")
  | Some c =>
      let* nonce := call (get_transaction_count sender_address) in
      let* tx := call (build_transfer c recipient amount
                    {| tx_from := sender_address; tx_nonce := nonce;
                       tx_gas := 100000; tx_gasPrice := fifty_gwei |}) in
      let* signed_tx := call (sign_transaction tx private_key) in
      let* tx_hash := call (send_raw_transaction signed_tx) in
      ret tt
  end.

End Ledger.

Arguments calculate_gas {World Tx} gas_price estimate_gas self transaction _.
Arguments create_transaction {World Tx SignedTx TxHash}
  get_transaction_count gas_price estimate_gas build_transfer
  sign_transaction send_raw_transaction
  self sender_address recipient_address amount private_key _.
Arguments transfer_erc20 {World Tx SignedTx TxHash}
  get_transaction_count build_transfer sign_transaction send_raw_transaction
  self recipient amount sender_address private_key _.

(** [self.contract = ...], the assignment that ends a successful
    [deploy_erc20_contract]. *)
Definition set_contract (self : QuantumNetwork) (c : Contract) : QuantumNetwork :=
  {| cloud := cloud self; nodes := nodes self; global_chain := global_chain self;
     web3 := web3 self; contract := Some c |}.

(** *** deploy_erc20_contract *)

Section Deploy.

Variables World Factory Constructor Tx SignedTx TxHash : Type.

(** [self.web3.eth.contract(abi=..., bytecode=...)] *)
Variable contract_factory : string -> string -> World -> reply Factory * World.
(** [contract.constructor(name, symbol, initial_supply)] *)
Variable constructor : Factory -> string -> string -> Z -> World -> reply Constructor * World.
Variable get_transaction_count : string -> World -> reply Z * World.
(** [(...).build_transaction(params)] *)
Variable build_transaction : Constructor -> TxParams -> World -> reply Tx * World.
Variable sign_transaction : Tx -> string -> World -> reply SignedTx * World.
Variable send_raw_transaction : SignedTx -> World -> reply TxHash * World.
(** [wait_for_transaction_receipt(tx_hash).contractAddress] *)
Variable wait_for_transaction_receipt : TxHash -> World -> reply string * World.
(** [self.web3.eth.contract(address=..., abi=...)]: the client may refuse the
    address or the ABI; the object it returns otherwise is held as the record
    of the two. *)
Variable contract_at : string -> string -> World -> reply unit * World.

Definition erc20_abi : string := "[ABI_JSON]".
Definition erc20_bytecode : string := "[BYTECODE]".

(** The calls made to the client, in the order Python evaluates them: the
    factory (line 78), the constructor call, the nonce inside the argument
    of [build_transaction] (lines 79-84), then signing, sending, the receipt
    and the contract object at the deployed address (lines 85-92). *)
Definition deploy_calls (name symbol : string) (initial_supply : Z)
    (owner_address private_key : string) : L World Contract :=
  bind World (call World (contract_factory erc20_abi erc20_bytecode)) (fun contract =>
  bind World (call World (constructor contract name symbol initial_supply)) (fun ctor =>
  bind World (call World (get_transaction_count owner_address)) (fun nonce =>
  bind World (call World (build_transaction ctor
                            {| tx_from := owner_address; tx_nonce := nonce;
                               tx_gas := 2000000; tx_gasPrice := fifty_gwei |})) (fun tx =>
  bind World (call World (sign_transaction tx private_key)) (fun signed_tx =>
  bind World (call World (send_raw_transaction signed_tx)) (fun tx_hash =>
  bind World (call World (wait_for_transaction_receipt tx_hash)) (fun contractAddress =>
  bind World (call World (contract_at contractAddress erc20_abi)) (fun _ =>
  ret World {| address := contractAddress; abi := erc20_abi |})))))))).

(** [self.contract] is assigned once the last call has returned. *)
Definition deploy_erc20_contract (self : QuantumNetwork) (name symbol : string)
    (initial_supply : Z) (owner_address private_key : string) (w : World)
    : outcome unit * (QuantumNetwork * World) :=
  match deploy_calls name symbol initial_supply owner_address private_key w with
  | (Returned c, w') => (Returned tt, (set_contract self c, w'))
  | (Raised e, w') => (Raised e, (self, w'))
  end.

End Deploy.

Arguments deploy_calls {World Factory Constructor Tx SignedTx TxHash}
  contract_factory constructor get_transaction_count build_transaction sign_transaction
  send_raw_transaction wait_for_transaction_receipt contract_at
  name symbol initial_supply owner_address private_key _.
Arguments deploy_erc20_contract {World Factory Constructor Tx SignedTx TxHash}
  contract_factory constructor get_transaction_count build_transaction sign_transaction
  send_raw_transaction wait_for_transaction_receipt contract_at
  self name symbol initial_supply owner_address private_key w.

End Quantumeth.

(** A stand-in for the web3 client, for running the ledger operations: the
    outside state is the log of the calls made, and every call succeeds. *)
Module StubClient.

Definition World : Type := list string.

Definition logged {A} (name : string) (a : A) (w : World) : Quantumeth.reply A * World :=
  (Quantumeth.Ok a, w ++ [name]).

Definition get_transaction_count (address : string) : World -> Quantumeth.reply Z * World :=
  logged "get_transaction_count" 7%Z.
Definition gas_price : World -> Quantumeth.reply Z * World :=
  logged "gas_price" 3%Z.
Definition estimate_gas (tx : Quantumeth.TxParams) : World -> Quantumeth.reply Z * World :=
  logged "estimate_gas" 21000%Z.
Definition build_transfer (c : Quantumeth.Contract) (recipient : string) (amount : Z)
    (params : Quantumeth.TxParams) : World -> Quantumeth.reply Quantumeth.TxParams * World :=
  logged "build_transaction" params.
Definition sign_transaction (tx : Quantumeth.TxParams) (private_key : string)
    : World -> Quantumeth.reply string * World :=
  logged "sign_transaction" "signed".
Definition send_raw_transaction (signed_tx : string) : World -> Quantumeth.reply string * World :=
  logged "send_raw_transaction" "0xhash".

Definition create_transaction :=
  Quantumeth.create_transaction get_transaction_count gas_price estimate_gas
    build_transfer sign_transaction send_raw_transaction.

Definition transfer_erc20 :=
  Quantumeth.transfer_erc20 get_transaction_count build_transfer
    sign_transaction send_raw_transaction.

End StubClient.

(** ** qtp.py *)

Module Qtp.

Record QuantumBlock : Type := mkQuantumBlock {
  transactions : list string;
  previous_hash : string;
  hash : string
}.

(** [generate_hash(self)], called by the constructor once [self.transactions]
    and [self.previous_hash] are set: the digest is taken of [state_str]
    alone. *)
Definition generate_hash (self_transactions : list string)
    (self_previous_hash : string) : string :=
  sha256_hexdigest state_str.

Definition QuantumBlock_init (transactions : list string) (previous_hash : string)
    : QuantumBlock :=
  {| transactions := transactions;
     previous_hash := previous_hash;
     hash := generate_hash transactions previous_hash |}.

Record QuantumBlockchain : Type := mkQuantumBlockchain {
  chain : list QuantumBlock
}.

Definition QuantumBlockchain_init : QuantumBlockchain := {| chain := [] |}.

Definition add_block (transactions : list string) (self : QuantumBlockchain)
    : outcome (option QuantumBlock) * QuantumBlockchain :=
  let previous_hash :=
    match last (chain self) with
    | Some b => hash b
    | None => genesis_hash
    end in
  let block := QuantumBlock_init transactions previous_hash in
  (Returned None, {| chain := chain self ++ [block] |}).

Definition link_check (chain : list QuantumBlock) (i : nat) : outcome (option bool) :=
  match chain !! i, chain !! (i - 1)%nat with
  | Some b, Some p =>
      if decide (previous_hash b <> hash p) then Returned (Some false)
      else Returned None
  | _, _ => Raised (IndexError "list index out of range")
  end.

Fixpoint is_valid_loop (chain : list QuantumBlock) (range : list nat) : outcome bool :=
  match range with
  | [] => Returned true
  | i :: range' =>
      match link_check chain i with
      | Returned (Some r) => Returned r
      | Returned None => is_valid_loop chain range'
      | Raised e => Raised e
      end
  end.

Definition is_valid (self : QuantumBlockchain) : outcome bool * QuantumBlockchain :=
  (is_valid_loop (chain self) (seq 1 (length (chain self) - 1)), self).

Fixpoint add_blocks (batches : list (list string)) (self : QuantumBlockchain)
    : outcome unit * QuantumBlockchain :=
  match batches with
  | [] => (Returned tt, self)
  | transactions :: rest =>
      match add_block transactions self with
      | (Returned _, self') => add_blocks rest self'
      | (Raised e, self') => (Raised e, self')
      end
  end.

End Qtp.

(** ** quantumblockchainnetworkcosmos.py: the node's hashing and add_block.
    The file imports [braket.circuits] as [bk] and asks that module for the
    simulator; cloud, validate_chain and the optimizer are those of
    Quantumeth.py, and so is the text of add_block. The network record of
    Quantumeth.py stands for the Cosmos one, whose client fields play no
    part here. *)

Module Cosmos.

(** [f'{v}'] for a count. *)
Definition str_of_count (v : nat) : string :=
  NilEmpty.string_of_uint (Nat.to_uint v).

(** [bk.LocalSimulator], with [bk] the module [braket.circuits] (line 1).
    That module defines [Circuit] and the gates the function applies before,
    and no [LocalSimulator] (the class of that name is in [braket.devices]):
    the lookup raises. *)
Definition no_LocalSimulator : exn :=
  AttributeError "module 'braket.circuits' has no attribute 'LocalSimulator'".

Definition bk_LocalSimulator : outcome unit := Raised no_LocalSimulator.

(** The circuit is built, then the simulator is looked up (line 43). What
    follows the lookup is the text of lines 43-49, with
    [task.result().measurement_counts] as [result]: bit strings with their
    counts, in dictionary order. *)
Definition generate_quantum_hash (result : list (string * nat)) (data : string)
    : outcome string :=
  match bk_LocalSimulator with
  | Raised e => Raised e
  | Returned _ =>
      let measurement_str :=
        String.concat "" (map (fun kv => fst kv +:+ ":" +:+ str_of_count (snd kv)) result) in
      let combined_data := (data +:+ measurement_str) in
      Returned (sha256_hexdigest combined_data)
  end.

(** An exception of [generate_quantum_hash] leaves [create_block] before
    the block is built and before [self.chain.append(block)]. *)
Definition create_block (result : list (string * nat)) (self : Quantumeth.QuantumNode)
    (transactions : list string) (previous_hash : string)
    : outcome (Quantumeth.Block * Quantumeth.QuantumNode) :=
  let data := (String.concat "" transactions +:+ previous_hash) in
  match generate_quantum_hash result data with
  | Raised e => Raised e
  | Returned block_hash =>
      let block := {| Quantumeth.transactions := transactions;
                      Quantumeth.previous_hash := previous_hash;
                      Quantumeth.hash := block_hash |} in
      Returned (block, Quantumeth.chain_append block self)
  end.

Definition add_block (result : list (string * nat)) (transactions : list string)
    (self : Quantumeth.QuantumNetwork)
    : outcome (option Quantumeth.Block) * Quantumeth.QuantumNetwork :=
  let previous_hash :=
    match last (Quantumeth.global_chain self) with
    | Some b => Quantumeth.hash b
    | None => genesis_hash
    end in
  match Quantumeth.nodes self !! 0%nat with
  | None => (Raised (IndexError "list index out of range"), self)
  | Some node0 =>
      match create_block result node0 transactions previous_hash with
      | Raised e => (Raised e, self)
      | Returned (new_block, node0') =>
          let self := Quantumeth.set_nodes self (<[0%nat := node0']> (Quantumeth.nodes self)) in
          let self :=
            Quantumeth.set_global_chain self (Quantumeth.global_chain self ++ [new_block]) in
          let self :=
            Quantumeth.set_nodes self
              (Quantumeth.broadcast (Quantumeth.cloud self) new_block (Quantumeth.nodes self)) in
          (Returned None, self)
      end
  end.

(** A script calling [add_block] once per batch, each call with the outcome
    its sampling would have; an exception ends it. *)
Fixpoint add_blocks (calls : list (list (string * nat) * list string))
    (self : Quantumeth.QuantumNetwork) : outcome unit * Quantumeth.QuantumNetwork :=
  match calls with
  | [] => (Returned tt, self)
  | (result, transactions) :: rest =>
      match add_block result transactions self with
      | (Returned _, self') => add_blocks rest self'
      | (Raised e, self') => (Raised e, self')
      end
  end.

End Cosmos.

(** ** quantumsolanaalgorithm.py: submit_to_solana. Node, cloud, add_block,
    validate_chain and the optimizer are those of Quantumeth.py. The key
    generator, the random number generator and the RPC client are outside
    collaborators acting on an outside state. *)

Module Solana.

Section Submit.

Variables World Account PubKey Response : Type.

(** [Account()] *)
Variable new_account : World -> Account * World.
(** [account.public_key()] *)
Variable public_key : Account -> PubKey.
(** [random.randint(1, 10)] *)
Variable randint_1_10 : World -> Z * World.

(** [Transaction().add(transfer(TransferParams(...)))] *)
Record TransferTx : Type := mkTransferTx {
  from_pubkey : PubKey;
  to_pubkey : PubKey;
  lamports : Z
}.

(** [self.solana_client.send_transaction(transfer_tx, sender)] *)
Variable send_transaction : TransferTx -> Account -> World -> Quantumeth.reply Response * World.

(** One pass of the loop body; the [print] is left out. *)
Definition submit_one (transaction : string) (w : World) : outcome unit * World :=
  let '(sender, w) := new_account w in
  let '(recipient_account, w) := new_account w in
  let recipient := public_key recipient_account in
  let '(amount, w) := randint_1_10 w in
  let transfer_tx :=
    {| from_pubkey := public_key sender; to_pubkey := recipient; lamports := amount |} in
  match send_transaction transfer_tx sender w with
  | (Quantumeth.Ok response, w) => (Returned tt, w)
  | (Quantumeth.Fail msg, w) => (Raised (ConnectorError msg), w)
  end.

Fixpoint submit_to_solana (transactions : list string) (w : World) : outcome unit * World :=
  match transactions with
  | [] => (Returned tt, w)
  | transaction :: rest =>
      match submit_one transaction w with
      | (Returned _, w') => submit_to_solana rest w'
      | (Raised e, w') => (Raised e, w')
      end
  end.

End Submit.

Arguments mkTransferTx {PubKey} from_pubkey to_pubkey lamports.
Arguments submit_one {World Account PubKey Response}
  new_account public_key randint_1_10 send_transaction transaction w.
Arguments submit_to_solana {World Account PubKey Response}
  new_account public_key randint_1_10 send_transaction transactions w.

End Solana.

(** * Vocabulary of the properties *)

(** ** Linked chains

    What both validators decide, stated once for any block type with a
    previous-hash and a hash field. *)

Section LinkDefs.

Context {B : Type} (prev hsh : B -> string).

(** Index [i] holds a block whose previous hash is not its predecessor's hash. *)
Definition bad_link (chain : list B) (i : nat) : Prop :=
  0 < i /\ exists b p,
    chain !! i = Some b /\ chain !! (i - 1) = Some p /\ prev b <> hsh p.

(** [chain[i].previous_hash == chain[i-1].hash] for every [i > 0]. *)
Definition linked (chain : list B) : Prop :=
  forall i b p, 0 < i -> chain !! i = Some b -> chain !! (i - 1) = Some p ->
                prev b = hsh p.

Fixpoint linked_b (chain : list B) : bool :=
  match chain with
  | p :: (b :: _) as rest => bool_decide (prev b = hsh p) && linked_b rest
  | _ => true
  end.

(** The fields the validators read. *)
Definition link_fields (b : B) : string * string := (prev b, hsh b).

End LinkDefs.

Module QuantumethStates.
Import Quantumeth.

(** The states a network goes through.

    A network of [n] nodes whose canonical chain is [G]: the producer, node 0,
    holds every block of [G] twice (once from [create_block], once from the
    broadcast), every other node holds [G]. *)

Definition twice (G : list Block) : list Block := flat_map (fun b => [b; b]) G.

Definition replicas (n : nat) (G : list Block) : list QuantumNode :=
  match n with
  | O => []
  | S m => mkNode 0 (twice G) :: map (fun i => mkNode i G) (seq 1 m)
  end.

Definition state_of (n : nat) (url : string) (G : list Block) : QuantumNetwork :=
  {| cloud := {| connected_nodes := seq 0 n |};
     nodes := replicas n G;
     global_chain := G;
     web3 := url;
     contract := None |}.

(** The previous hash [add_block] computes over a canonical chain [G]. *)
Definition previous_hash_for (G : list Block) : string :=
  match last G with
  | Some b => hash b
  | None => genesis_hash
  end.

(** The block [create_block] builds. *)
Definition sealed (txs : list string) (prev : string) : Block :=
  {| transactions := txs;
     previous_hash := prev;
     hash := generate_quantum_hash (String.concat "" txs +:+ prev) |}.

(** The canonical chain after one [add_block] per batch. *)
Definition chain_after (G : list Block) (batches : list (list string)) : list Block :=
  fold_left (fun G txs => G ++ [sealed txs (previous_hash_for G)]) batches G.

End QuantumethStates.

(** The cost as the specification words it: the sum over adjacent pairs of
    the distance between their hashes. *)
Fixpoint adjacent_cost (stable_hash : string -> Z) (order : list string) : Z :=
  match order with
  | a :: (b :: _) as rest =>
      (Z.abs (stable_hash a - stable_hash b) + adjacent_cost stable_hash rest)%Z
  | _ => 0%Z
  end.

Module OptimizerSpec.
Import Quantumeth.

(** The body of the loop of [calculate_cost] over the tuple [order]. *)
Definition cost_step (h : string -> Z) (order : list string) (cost : Z) (i : nat) : Z :=
  (cost + Z.abs (h (nth i order "") - h (nth (i + 1) order "")))%Z.

(** What the loop of [optimize_transaction_order] holds after running over
    the candidates [ps]: nothing yet, or the first candidate of least cost. *)
Definition first_least (h : string -> Z) (ps : list (list string)) (best : list string) (c : Z) : Prop :=
  c = calculate_cost h best
  /\ exists k,
       ps !! k = Some best
       /\ (forall j p, ps !! j = Some p -> (c <= calculate_cost h p)%Z)
       /\ (forall j p, j < k -> ps !! j = Some p -> (c < calculate_cost h p)%Z).

End OptimizerSpec.

Section ClientSpec.

Variables World Tx SignedTx TxHash : Type.
Variable get_transaction_count : string -> World -> Quantumeth.reply Z * World.
Variable gas_price : World -> Quantumeth.reply Z * World.
Variable estimate_gas : Tx -> World -> Quantumeth.reply Z * World.
Variable build_transfer :
  Quantumeth.Contract -> string -> Z -> Quantumeth.TxParams -> World -> Quantumeth.reply Tx * World.
Variable sign_transaction : Tx -> string -> World -> Quantumeth.reply SignedTx * World.
Variable send_raw_transaction : SignedTx -> World -> Quantumeth.reply TxHash * World.

(** A client call that replies, whatever the outside state. *)
Definition succeeds {A} (c : World -> Quantumeth.reply A * World) : Prop :=
  forall w, exists a w', c w = (Quantumeth.Ok a, w').

(** A client none of whose calls fails. *)
Definition client_succeeds : Prop :=
  (forall addr, succeeds (get_transaction_count addr))
  /\ succeeds gas_price
  /\ (forall tx, succeeds (estimate_gas tx))
  /\ (forall c r a p, succeeds (build_transfer c r a p))
  /\ (forall tx k, succeeds (sign_transaction tx k))
  /\ (forall s, succeeds (send_raw_transaction s)).

End ClientSpec.

Arguments succeeds {World A} c.
Arguments client_succeeds {World Tx SignedTx TxHash}
  get_transaction_count gas_price estimate_gas build_transfer
  sign_transaction send_raw_transaction.

(** What [add_block] does to the network once the block [b] is made by the
    producer [node0]: the three statements that follow [create_block]'s
    digest. *)
Module NetworkSteps.
Import Quantumeth.

Definition commit (self : QuantumNetwork) (node0 : QuantumNode) (b : Block) : QuantumNetwork :=
  let self := set_nodes self (<[0%nat := chain_append b node0]> (nodes self)) in
  let self := set_global_chain self (global_chain self ++ [b]) in
  set_nodes self (broadcast (cloud self) b (nodes self)).

(** How many times a node is registered with a cloud. *)
Definition registrations (c : QuantumCloud) (i : node_ref) : nat :=
  count_occ Nat.eq_dec (connected_nodes c) i.

(** [l'] is [l] with further elements appended. *)
Definition extends {A} (l l' : list A) : Prop := exists ext, l' = l ++ ext.

(** The digest a block of Quantumeth.py must carry, given its other fields. *)
Definition digest_of (b : Block) : string :=
  sha256_hexdigest ((String.concat "" (transactions b) +:+ previous_hash b) +:+ state_str).

End NetworkSteps.

(** Sorting texts by their hash, by insertion. *)
Module SortByHash.

Fixpoint insert_by (h : string -> Z) (x : string) (l : list string) : list string :=
  match l with
  | [] => [x]
  | y :: l' => if (h x <=? h y)%Z then x :: l else y :: insert_by h x l'
  end.

Definition sort_by (h : string -> Z) (l : list string) : list string :=
  fold_right (insert_by h) [] l.

Definition le_hash (h : string -> Z) (a b : string) : Prop := (h a <= h b)%Z.

End SortByHash.

(** What the blocks of a chain of qtp.py have in common. *)
Module QtpSpec.
Import Qtp.

(** The digest [generate_hash] returns, whatever the block. *)
Definition H : string := sha256_hexdigest state_str.

(** Every block carries the one digest; every block but the first points at it. *)
Definition uniform (c : list QuantumBlock) : Prop :=
  Forall (fun b => hash b = H) c /\ Forall (fun b => previous_hash b = H) (tail c).

End QtpSpec.

(** Rewriting one field of one block of the canonical chain, as a party with
    access to the list could. *)
Module Tamper.
Import Quantumeth.

Definition with_previous_hash (prev' : string) (b : Block) : Block :=
  {| transactions := transactions b; previous_hash := prev'; hash := hash b |}.

Definition with_hash (hash' : string) (b : Block) : Block :=
  {| transactions := transactions b; previous_hash := previous_hash b; hash := hash' |}.

(** The network with the block at position [i] of its canonical chain replaced. *)
Definition rewrite_block (f : Block -> Block) (i : nat) (self : QuantumNetwork) : QuantumNetwork :=
  set_global_chain self (alter f i (global_chain self)).

End Tamper.

Module DigestSpec.
Import Quantumeth.

(** Both hash fields are as wide as a SHA-256 hex digest. *)
Definition wide (b : Block) : Prop :=
  String.length (hash b) = 64 /\ String.length (previous_hash b) = 64.

End DigestSpec.


(** Stand-ins for the client calls of a deployment, on the log of
    [StubClient]. *)
Module StubDeploy.

Definition contract_factory (abi bytecode : string)
    : StubClient.World -> Quantumeth.reply string * StubClient.World :=
  StubClient.logged "contract" bytecode.

Definition constructor (factory name symbol : string) (initial_supply : Z)
    : StubClient.World -> Quantumeth.reply string * StubClient.World :=
  StubClient.logged "constructor" symbol.

Definition build_transaction (ctor : string) (params : Quantumeth.TxParams)
    : StubClient.World -> Quantumeth.reply Quantumeth.TxParams * StubClient.World :=
  StubClient.logged "build_transaction" params.

Definition wait_for_transaction_receipt (tx_hash : string)
    : StubClient.World -> Quantumeth.reply string * StubClient.World :=
  StubClient.logged "wait_for_transaction_receipt" "0xc0ffee".

Definition contract_at (address abi : string)
    : StubClient.World -> Quantumeth.reply unit * StubClient.World :=
  StubClient.logged "contract" tt.



Definition deploy_erc20_contract :=
  Quantumeth.deploy_erc20_contract contract_factory constructor
    StubClient.get_transaction_count build_transaction StubClient.sign_transaction
    StubClient.send_raw_transaction wait_for_transaction_receipt contract_at.



End StubDeploy.

(** A stand-in for the Solana collaborators. *)
Module StubSolana.

(** The outside state is a counter: it numbers the accounts, seeds the
    amounts and counts the transactions sent. *)
Definition World : Type := nat.
Definition new_account (w : World) : nat * World := (w, S w).
Definition public_key (account : nat) : nat := account.
Definition randint_1_10 (w : World) : Z * World := ((1 + Z.of_nat w mod 10)%Z, S w).
Definition send_transaction (tx : Solana.TransferTx nat) (sender : nat) (w : World)
    : Quantumeth.reply nat * World :=
  (Quantumeth.Ok w, S w).

Definition submit_to_solana :=
  Solana.submit_to_solana new_account public_key randint_1_10 send_transaction.

End StubSolana.

(** Sample states: a chain whose second block does not point at the first,
    a chain of one block, and a network with a contract deployed. *)
Module Samples.

Definition forged : Quantumeth.QuantumNetwork :=
  Quantumeth.mkNetwork Quantumeth.QuantumCloud_init []
    [Quantumeth.mkBlock ["x"] "00" "aa"; Quantumeth.mkBlock ["y"] "zz" "bb"] "u" None.

Definition single : Quantumeth.QuantumNetwork :=
  Quantumeth.mkNetwork Quantumeth.QuantumCloud_init []
    [Quantumeth.mkBlock ["x"] "00" "aa"] "u" None.

Definition deployed : Quantumeth.QuantumNetwork :=
  Quantumeth.set_contract (Quantumeth.QuantumNetwork_init 3 "u")
    (Quantumeth.mkContract "0xc0ffee" "[ABI_JSON]").

End Samples.

(** * Properties *)

(** ** The library models on known values *)

Example sha256_constants :
  hd_error Sha256.K = Some 0x428a2f98%Z /\ last Sha256.K = Some 0xc67178f2%Z
  /\ length Sha256.K = 64
  /\ hd_error Sha256.H0 = Some 0x6a09e667%Z /\ last Sha256.H0 = Some 0x5be0cd19%Z.
Proof. repeat split; reflexivity. Qed.

Example sha256_empty :
  sha256_hexdigest "" = "e3b0c44298fc1c149afbf4c8996fb92427ae41e4649b934ca495991b7852b855".
Proof. vm_compute. reflexivity. Qed.

Example sha256_abc :
  sha256_hexdigest "abc" = "ba7816bf8f01cfea414140de5dae2223b00361a396177a9cb410ff61f20015ad".
Proof. vm_compute. reflexivity. Qed.

(** A message longer than one block (two compression rounds). *)
Example sha256_two_blocks :
  sha256_hexdigest "abcdbcdecdefdefgefghfghighijhijkijkljklmklmnlmnomnopnopq"
  = "248d6a61d20638b8e5c026930c3e6039a33ce45964ff2167f6ecedd419db06c1".
Proof. vm_compute. reflexivity. Qed.

Example permutations_abc :
  itertools.permutations ["a"; "b"; "c"]
  = [ ["a";"b";"c"]; ["a";"c";"b"]; ["b";"a";"c"];
      ["b";"c";"a"]; ["c";"a";"b"]; ["c";"b";"a"] ].
Proof. reflexivity. Qed.

Example permutations_empty : itertools.permutations (@nil string) = [[]].
Proof. reflexivity. Qed.

Example permutations_repeated :
  itertools.permutations ["x"; "x"] = [ ["x";"x"]; ["x";"x"] ].
Proof. reflexivity. Qed.

(** ** Linked chains *)

Section Links.

Context {B : Type} (prev hsh : B -> string).

Lemma linked_nil : linked prev hsh [].
Proof. intros i b p _ H. rewrite lookup_nil in H. discriminate. Qed.

Lemma linked_cons p b rest :
  linked prev hsh (p :: b :: rest) <-> prev b = hsh p /\ linked prev hsh (b :: rest).
Proof.
  split.
  - intros H. split.
    + apply (H 1); [lia | reflexivity | reflexivity].
    + intros i b' p' Hi Hb Hp. apply (H (S i)); [lia | exact Hb |].
      destruct i as [|i]; [lia |]. simpl in *. rewrite Nat.sub_0_r in Hp. exact Hp.
  - intros [H1 H2] i b' p' Hi Hb Hp.
    destruct i as [|[|i]]; [lia | simpl in *; congruence |].
    apply (H2 (S i)); [lia | exact Hb |].
    simpl in *. rewrite Nat.sub_0_r. exact Hp.
Qed.

Lemma linked_b_true chain : linked_b prev hsh chain = true <-> linked prev hsh chain.
Proof.
  induction chain as [|p [|b rest] IH].
  - split; [intros _; apply linked_nil | reflexivity].
  - split; [| reflexivity]. intros _ i b p' Hi Hb _.
    destruct i; [lia |]. simpl in Hb. rewrite lookup_nil in Hb. discriminate.
  - change (linked_b prev hsh (p :: b :: rest))
      with (bool_decide (prev b = hsh p) && linked_b prev hsh (b :: rest)).
    rewrite andb_true_iff, bool_decide_eq_true, IH, linked_cons. reflexivity.
Qed.

Lemma not_linked_bad chain : ~ linked prev hsh chain <-> exists i, bad_link prev hsh chain i.
Proof.
  split.
  - induction chain as [|p [|b rest] IH]; intros H.
    + destruct H. apply linked_nil.
    + destruct H. apply linked_b_true. reflexivity.
    + destruct (decide (prev b = hsh p)) as [E|E].
      * destruct IH as [i (Hi & b' & p' & Hb & Hp & Hne)].
        { intros Hl. apply H, linked_cons. auto. }
        exists (S i). split; [lia |]. exists b', p'. split; [exact Hb |].
        split; [| exact Hne]. destruct i; [lia |].
        simpl in *. rewrite Nat.sub_0_r in Hp. exact Hp.
      * exists 1. split; [lia |]. exists b, p. auto.
  - intros [i (Hi & b & p & Hb & Hp & Hne)] Hl. apply Hne, (Hl i); assumption.
Qed.

Lemma linked_b_false chain : linked_b prev hsh chain = false <-> exists i, bad_link prev hsh chain i.
Proof.
  rewrite <- not_linked_bad, <- linked_b_true. destruct (linked_b prev hsh chain); split; congruence.
Qed.

(** Appending a block that points at the last one keeps a chain linked. *)
Lemma linked_snoc chain b :
  linked prev hsh chain ->
  (forall l, last chain = Some l -> prev b = hsh l) ->
  linked prev hsh (chain ++ [b]).
Proof.
  intros Hl Hlast i b' p' Hi Hb Hp.
  destruct (decide (i < length chain)) as [Hlt|Hge].
  - rewrite lookup_app_l in Hb by exact Hlt.
    rewrite lookup_app_l in Hp by lia. eapply Hl; eassumption.
  - assert (i = length chain) as ->.
    { apply lookup_lt_Some in Hb. rewrite length_app in Hb. simpl in Hb. lia. }
    rewrite list_lookup_middle in Hb by reflexivity. injection Hb as <-.
    rewrite lookup_app_l in Hp by lia.
    apply Hlast. rewrite last_lookup.
    replace (pred (length chain)) with (length chain - 1) by lia. exact Hp.
Qed.

End Links.

(** Chains that agree block by block on the two hash fields are linked alike. *)
Lemma linked_b_fields {B : Type} (prev hsh : B -> string) (c1 c2 : list B) :
  map (link_fields prev hsh) c1 = map (link_fields prev hsh) c2 ->
  linked_b prev hsh c1 = linked_b prev hsh c2.
Proof.
  revert c2. induction c1 as [|p1 [|b1 r1] IH]; intros [|p2 [|b2 r2]] H;
    try discriminate; try reflexivity.
  change (bool_decide (prev b1 = hsh p1) && linked_b prev hsh (b1 :: r1)
          = bool_decide (prev b2 = hsh p2) && linked_b prev hsh (b2 :: r2)).
  cbn [map] in H. unfold link_fields at 1 2 4 5 in H.
  injection H as _ Hp Hb Hb' Hr.
  rewrite Hp, Hb. f_equal. apply IH. cbn [map]. unfold link_fields at 1 3.
  rewrite Hb, Hb', Hr. reflexivity.
Qed.

(** A bad link inside a prefix is a bad link of the whole chain. *)
Lemma bad_link_take {B : Type} (prev hsh : B -> string) (chain : list B) (n i : nat) :
  bad_link prev hsh (take n chain) i -> i < n /\ bad_link prev hsh chain i.
Proof.
  intros (Hi & b & p & Hb & Hp & Hne).
  assert (i < n) as Hlt.
  { apply lookup_lt_Some in Hb. rewrite length_take in Hb. lia. }
  split; [exact Hlt |]. split; [exact Hi |]. exists b, p.
  rewrite lookup_take_lt in Hb by exact Hlt.
  rewrite lookup_take_lt in Hp by lia. auto.
Qed.

(** ** The validators *)

Module QuantumethFacts.
Import Quantumeth QuantumethStates.

Lemma link_check_at (pre : list Block) (p b : Block) (tail : list Block) :
  link_check (pre ++ p :: b :: tail) (S (length pre))
  = if decide (previous_hash b <> hash p) then Returned (Some false) else Returned None.
Proof.
  unfold link_check.
  replace (S (length pre) - 1) with (length pre) by lia.
  rewrite (list_lookup_middle pre (b :: tail) p (length pre) eq_refl).
  replace (pre ++ p :: b :: tail) with ((pre ++ [p]) ++ b :: tail)
    by (rewrite <- app_assoc; reflexivity).
  rewrite (list_lookup_middle (pre ++ [p]) tail b (S (length pre)))
    by (rewrite length_app; simpl; lia).
  reflexivity.
Qed.

(** Scanning the indices of [rest] inside [pre ++ p :: rest ++ tail] decides
    whether [p :: rest] is linked; nothing raises. *)
Lemma validate_loop_linked (rest pre : list Block) (p : Block) (tail : list Block) :
  validate_loop (pre ++ p :: rest ++ tail) (seq (S (length pre)) (length rest))
  = Returned (linked_b previous_hash hash (p :: rest)).
Proof.
  revert pre p. induction rest as [|b rest IH]; intros pre p.
  - reflexivity.
  - cbn [length seq validate_loop app]. rewrite link_check_at.
    change (linked_b previous_hash hash (p :: b :: rest))
      with (bool_decide (previous_hash b = hash p) && linked_b previous_hash hash (b :: rest)).
    destruct (decide (previous_hash b <> hash p)) as [Hne|Heq].
    + rewrite bool_decide_eq_false_2 by exact Hne. reflexivity.
    + apply dec_stable in Heq. rewrite bool_decide_eq_true_2 by exact Heq.
      specialize (IH (pre ++ [p]) b).
      rewrite <- app_assoc, length_app in IH. simpl in IH.
      replace (length pre + 1) with (S (length pre)) in IH by lia.
      exact IH.
Qed.

Lemma validate_chain_linked (self : QuantumNetwork) :
  validate_chain self
  = (Returned (linked_b previous_hash hash (global_chain self)), self).
Proof.
  unfold validate_chain. f_equal.
  destruct (global_chain self) as [|p rest]; [reflexivity |].
  cbn [length]. replace (S (length rest) - 1) with (length rest) by lia.
  pose proof (validate_loop_linked rest [] p []) as H.
  rewrite app_nil_r in H. exact H.
Qed.

(** The scan stops at the first bad link: the indices that follow it in the
    range are not consulted. *)
Lemma validate_loop_stops (chain : list Block) (i : nat) (later : list nat) :
  bad_link previous_hash hash chain i ->
  (forall j, j < i -> ~ bad_link previous_hash hash chain j) ->
  validate_loop chain (seq 1 (i - 1) ++ i :: later) = Returned false.
Proof.
  intros Hbad Hfirst.
  destruct Hbad as (Hi & b & p & Hb & Hp & Hne).
  assert (i < length chain) as Hlen by (eapply lookup_lt_Some; eassumption).
  assert (forall r1 r2, validate_loop chain r1 = Returned true ->
                        validate_loop chain (r1 ++ r2) = validate_loop chain r2) as Happ.
  { induction r1 as [|k r1 IH]; intros r2 H; [reflexivity |].
    cbn [app validate_loop] in *.
    destruct (link_check chain k) as [[[|]|]|e] eqn:E; try congruence; [| auto].
    unfold link_check in E. repeat case_match; congruence. }
  rewrite Happ.
  - cbn [validate_loop]. unfold link_check. rewrite Hb, Hp.
    destruct (decide (previous_hash b <> hash p)); [reflexivity | contradiction].
  - destruct (take i chain) as [|p0 rest0] eqn:Htake.
    { apply (f_equal length) in Htake. rewrite length_take in Htake. simpl in Htake. lia. }
    assert (length rest0 = i - 1) as Hr.
    { apply (f_equal length) in Htake. rewrite length_take in Htake. simpl in Htake. lia. }
    pose proof (validate_loop_linked rest0 [] p0 (drop i chain)) as H.
    cbn [app length] in H.
    change (p0 :: rest0 ++ drop i chain) with ((p0 :: rest0) ++ drop i chain) in H.
    rewrite <- Htake, take_drop, Hr in H. rewrite H. f_equal.
    destruct (linked_b previous_hash hash (take i chain)) eqn:Hl.
    + reflexivity.
    + apply linked_b_false in Hl. destruct Hl as [j Hj].
      apply bad_link_take in Hj. destruct Hj as [Hlt Hj].
      destruct (Hfirst j Hlt Hj).
Qed.

Lemma connect_all (l : list node_ref) (c : QuantumCloud) :
  fold_left connect_node l c = {| connected_nodes := connected_nodes c ++ l |}.
Proof.
  revert c. induction l as [|x l IH]; intros [ns]; cbn [fold_left].
  - cbn. rewrite app_nil_r. reflexivity.
  - rewrite IH. cbn. rewrite <- app_assoc. reflexivity.
Qed.

Lemma init_state (n : nat) (url : string) :
  QuantumNetwork_init n url = state_of n url [].
Proof.
  unfold QuantumNetwork_init, state_of.
  rewrite connect_all, length_map, length_seq. cbn [connected_nodes QuantumCloud_init app].
  f_equal. destruct n; reflexivity.
Qed.

(** Altering every position of a store in turn maps over the store. *)
Lemma alter_each {A} (f : A -> A) (rest pre : list A) :
  fold_left (fun st i => alter f i st) (seq (length pre) (length rest)) (pre ++ rest)
  = pre ++ map f rest.
Proof.
  revert pre. induction rest as [|x rest IH]; intros pre; [reflexivity |].
  cbn [length seq fold_left map].
  replace (alter f (length pre) (pre ++ x :: rest)) with ((pre ++ [f x]) ++ rest).
  - specialize (IH (pre ++ [f x])). rewrite length_app in IH. cbn [length] in IH.
    replace (length pre + 1) with (S (length pre)) in IH by lia.
    rewrite IH, <- app_assoc. reflexivity.
  - rewrite <- app_assoc. cbn [app].
    pose proof (alter_app_r f pre (x :: rest) 0) as H.
    rewrite Nat.add_0_r in H. rewrite H. reflexivity.
Qed.

Lemma broadcast_all (block : Block) (store : list QuantumNode) :
  broadcast {| connected_nodes := seq 0 (length store) |} block store
  = map (chain_append block) store.
Proof. unfold broadcast. cbn [connected_nodes]. apply (alter_each _ store []). Qed.

Lemma twice_snoc (G : list Block) (b : Block) : twice (G ++ [b]) = twice G ++ [b; b].
Proof. unfold twice. rewrite flat_map_app. reflexivity. Qed.

Lemma length_replicas (n : nat) (G : list Block) : length (replicas n G) = n.
Proof. destruct n; cbn; [| rewrite length_map, length_seq]; reflexivity. Qed.

(** One [add_block] on a network with at least one node. *)
Lemma add_block_state (m : nat) (url : string) (G : list Block) (txs : list string) :
  add_block txs (state_of (S m) url G)
  = (Returned None, state_of (S m) url (G ++ [sealed txs (previous_hash_for G)])).
Proof.
  unfold add_block. cbn [state_of nodes replicas lookup list_lookup global_chain].
  fold (previous_hash_for G). unfold create_block. fold (sealed txs (previous_hash_for G)).
  set (b := sealed txs (previous_hash_for G)).
  unfold set_nodes, set_global_chain, state_of.
  cbn [cloud nodes global_chain web3 contract chain_append node_id chain].
  f_equal. f_equal.
  change (<[0 := ?x]> (?y :: ?l)) with (x :: l). unfold chain_append at 1.
  cbn [node_id chain].
  pose proof (broadcast_all b
    ({| node_id := 0; chain := twice G ++ [b] |} :: map (fun i => mkNode i G) (seq 1 m))) as H.
  cbn [length] in H. rewrite length_map, length_seq in H. rewrite H.
  unfold replicas. rewrite twice_snoc. cbn [map]. unfold chain_append at 1.
  cbn [node_id chain]. rewrite <- app_assoc. f_equal. rewrite map_map. reflexivity.
Qed.

(** [add_block] on a network built with no node. *)
Lemma add_block_no_node (url : string) (G : list Block) (txs : list string) :
  add_block txs (state_of 0 url G)
  = (Raised (IndexError "list index out of range"), state_of 0 url G).
Proof. reflexivity. Qed.

Lemma add_blocks_state (m : nat) (url : string) (batches : list (list string)) (G : list Block) :
  add_blocks batches (state_of (S m) url G)
  = (Returned tt, state_of (S m) url (chain_after G batches)).
Proof.
  revert G. induction batches as [|txs rest IH]; intros G; [reflexivity |].
  cbn [add_blocks chain_after fold_left]. rewrite add_block_state. apply IH.
Qed.

Lemma add_blocks_no_node (url : string) (batches : list (list string)) :
  snd (add_blocks batches (state_of 0 url [])) = state_of 0 url [].
Proof. destruct batches; reflexivity. Qed.

Lemma chain_after_linked (batches : list (list string)) (G : list Block) :
  linked previous_hash hash G ->
  linked previous_hash hash (chain_after G batches).
Proof.
  revert G. induction batches as [|txs rest IH]; intros G HG; [exact HG |].
  cbn [chain_after fold_left]. apply IH. apply linked_snoc; [exact HG |].
  intros l Hl. unfold previous_hash_for. rewrite Hl. reflexivity.
Qed.

Lemma length_chain_after (batches : list (list string)) (G : list Block) :
  length (chain_after G batches) = length G + length batches.
Proof.
  revert G. induction batches as [|txs rest IH]; intros G; cbn [chain_after fold_left length].
  - lia.
  - unfold chain_after in IH. rewrite IH, length_app. cbn [length]. lia.
Qed.

(** One [add_block] on any network that has a producer node. *)
Lemma add_block_completes (self : QuantumNetwork) (txs : list string) (node0 : QuantumNode) :
  nodes self !! 0 = Some node0 ->
  fst (add_block txs self) = Returned None
  /\ global_chain (snd (add_block txs self))
     = global_chain self ++ [sealed txs (previous_hash_for (global_chain self))]
  /\ fst (create_block node0 txs (previous_hash_for (global_chain self)))
     = sealed txs (previous_hash_for (global_chain self)).
Proof.
  intros H. unfold add_block. rewrite H. fold (previous_hash_for (global_chain self)).
  repeat split; reflexivity.
Qed.

Lemma lookup_map {A B} (f : A -> B) (l : list A) (i : nat) :
  map f l !! i = f <$> l !! i.
Proof. revert i. induction l as [|x l IH]; intros [|i]; cbn; auto. Qed.

Lemma replicas_producer (m : nat) (G : list Block) :
  replicas (S m) G !! 0 = Some (mkNode 0 (twice G)).
Proof. reflexivity. Qed.

Lemma replicas_other (m : nat) (G : list Block) (i : nat) :
  0 < i < S m -> replicas (S m) G !! i = Some (mkNode i G).
Proof.
  intros Hi. destruct i as [|i]; [lia |]. cbn [replicas lookup list_lookup].
  change (map (fun i => mkNode i G) (seq 1 m) !! i = Some (mkNode (S i) G)).
  rewrite lookup_map, lookup_seq_lt by lia. reflexivity.
Qed.

(** The canonical chain of a network built by [add_block] calls validates. *)
Lemma validate_after_add_blocks (n : nat) (url : string) (batches : list (list string)) :
  fst (validate_chain (snd (add_blocks batches (QuantumNetwork_init n url)))) = Returned true.
Proof.
  rewrite validate_chain_linked, init_state. cbn [fst]. f_equal. apply linked_b_true.
  destruct n as [|m].
  - rewrite add_blocks_no_node. apply linked_nil.
  - rewrite add_blocks_state. cbn [snd state_of global_chain].
    apply chain_after_linked, linked_nil.
Qed.

(** Replacing the transactions of the block at one position. *)
Lemma validate_chain_tampered (self : QuantumNetwork) (i : nat) (txs' : list string) :
  fst (validate_chain
         (set_global_chain self
            (alter (fun b => mkBlock txs' (previous_hash b) (hash b)) i (global_chain self))))
  = fst (validate_chain self).
Proof.
  rewrite !validate_chain_linked. cbn [fst]. f_equal. apply linked_b_fields.
  cbn [set_global_chain global_chain].
  generalize (global_chain self) as c. intros c. revert i.
  induction c as [|x c IH]; intros [|i]; cbn; try reflexivity.
  f_equal. apply IH.
Qed.

End QuantumethFacts.

Module QtpFacts.
Import Qtp.

Lemma qtp_link_check_at (pre : list QuantumBlock) (p b : QuantumBlock) (tail : list QuantumBlock) :
  link_check (pre ++ p :: b :: tail) (S (length pre))
  = if decide (previous_hash b <> hash p) then Returned (Some false) else Returned None.
Proof.
  unfold link_check.
  replace (S (length pre) - 1) with (length pre) by lia.
  rewrite (list_lookup_middle pre (b :: tail) p (length pre) eq_refl).
  replace (pre ++ p :: b :: tail) with ((pre ++ [p]) ++ b :: tail)
    by (rewrite <- app_assoc; reflexivity).
  rewrite (list_lookup_middle (pre ++ [p]) tail b (S (length pre)))
    by (rewrite length_app; simpl; lia).
  reflexivity.
Qed.

Lemma is_valid_loop_linked (rest pre : list QuantumBlock) (p : QuantumBlock) :
  is_valid_loop (pre ++ p :: rest) (seq (S (length pre)) (length rest))
  = Returned (linked_b previous_hash hash (p :: rest)).
Proof.
  revert pre p. induction rest as [|b rest IH]; intros pre p.
  - reflexivity.
  - cbn [length seq is_valid_loop]. rewrite qtp_link_check_at.
    change (linked_b previous_hash hash (p :: b :: rest))
      with (bool_decide (previous_hash b = hash p) && linked_b previous_hash hash (b :: rest)).
    destruct (decide (previous_hash b <> hash p)) as [Hne|Heq].
    + rewrite bool_decide_eq_false_2 by exact Hne. reflexivity.
    + apply dec_stable in Heq. rewrite bool_decide_eq_true_2 by exact Heq.
      specialize (IH (pre ++ [p]) b).
      rewrite <- app_assoc, length_app in IH. simpl in IH.
      replace (length pre + 1) with (S (length pre)) in IH by lia.
      exact IH.
Qed.

Lemma is_valid_linked (self : QuantumBlockchain) :
  is_valid self = (Returned (linked_b previous_hash hash (chain self)), self).
Proof.
  unfold is_valid. f_equal.
  destruct (chain self) as [|p rest]; [reflexivity |].
  cbn [length]. replace (S (length rest) - 1) with (length rest) by lia.
  apply (is_valid_loop_linked rest [] p).
Qed.

(** Every block of qtp.py carries the same digest. *)
Lemma qtp_hash_constant (txs : list string) (prev : string) :
  hash (QuantumBlock_init txs prev) = sha256_hexdigest state_str.
Proof. reflexivity. Qed.

Lemma qtp_add_blocks_linked (batches : list (list string)) (self : QuantumBlockchain) :
  linked previous_hash hash (chain self) ->
  fst (add_blocks batches self) = Returned tt
  /\ linked previous_hash hash (chain (snd (add_blocks batches self)))
  /\ length (chain (snd (add_blocks batches self))) = length (chain self) + length batches.
Proof.
  revert self. induction batches as [|txs rest IH]; intros self Hl.
  - cbn. auto with lia.
  - cbn [add_blocks add_block].
    match goal with |- context [add_blocks rest ?s] => specialize (IH s) end.
    destruct IH as (H1 & H2 & H3).
    + cbn [chain]. apply linked_snoc; [exact Hl |].
      intros l Hlast. rewrite Hlast. reflexivity.
    + split; [exact H1 |]. split; [exact H2 |].
      rewrite H3. cbn [chain length]. rewrite length_app. cbn [length]. lia.
Qed.

End QtpFacts.

(** ** Chain-link invariant and validation *)

(** C1. Chain-link invariant. Whatever the number of nodes and whatever
    batches are added to a fresh network, the canonical chain is linked
    (every block's previous hash is its predecessor's hash) and
    [validate_chain] returns [True] on it; with at least one node every call
    completes and adds one block. Any chain with a block whose previous hash
    differs from its predecessor's hash makes [validate_chain] return
    [False]. The same holds for [QuantumBlockchain] of qtp.py. *)
Theorem chain_link_invariant :
  forall (num_nodes : nat) (ethereum_url : string) (batches : list (list string)),
    let net := snd (Quantumeth.add_blocks batches
                      (Quantumeth.QuantumNetwork_init num_nodes ethereum_url)) in
    let bc := snd (Qtp.add_blocks batches Qtp.QuantumBlockchain_init) in
    length (Quantumeth.global_chain net)
      = match num_nodes with O => 0 | S _ => length batches end
    /\ linked Quantumeth.previous_hash Quantumeth.hash (Quantumeth.global_chain net)
    /\ Quantumeth.validate_chain net = (Returned true, net)
    /\ (forall self i,
          bad_link Quantumeth.previous_hash Quantumeth.hash (Quantumeth.global_chain self) i ->
          Quantumeth.validate_chain self = (Returned false, self))
    /\ length (Qtp.chain bc) = length batches
    /\ linked Qtp.previous_hash Qtp.hash (Qtp.chain bc)
    /\ Qtp.is_valid bc = (Returned true, bc)
    /\ (forall self i,
          bad_link Qtp.previous_hash Qtp.hash (Qtp.chain self) i ->
          Qtp.is_valid self = (Returned false, self)).
Proof.
  intros n url batches net bc.
  assert (linked Quantumeth.previous_hash Quantumeth.hash (Quantumeth.global_chain net)
          /\ length (Quantumeth.global_chain net)
             = match n with O => 0 | S _ => length batches end) as [Hl Hlen].
  { subst net. rewrite QuantumethFacts.init_state. destruct n as [|m].
    - rewrite QuantumethFacts.add_blocks_no_node. split; [apply linked_nil | reflexivity].
    - rewrite QuantumethFacts.add_blocks_state. cbn [snd QuantumethStates.state_of Quantumeth.global_chain].
      split; [apply QuantumethFacts.chain_after_linked, linked_nil |].
      rewrite QuantumethFacts.length_chain_after. reflexivity. }
  destruct (QtpFacts.qtp_add_blocks_linked batches Qtp.QuantumBlockchain_init)
    as (_ & Hql & Hqlen); [apply linked_nil |].
  fold bc in Hql, Hqlen.
  split; [exact Hlen |]. split; [exact Hl |]. split.
  { rewrite QuantumethFacts.validate_chain_linked. do 2 f_equal.
    apply linked_b_true. exact Hl. }
  split.
  { intros self i Hbad. rewrite QuantumethFacts.validate_chain_linked. do 2 f_equal.
    apply linked_b_false. exists i. exact Hbad. }
  split; [exact Hqlen |]. split; [exact Hql |]. split.
  { rewrite QtpFacts.is_valid_linked. do 2 f_equal. apply linked_b_true. exact Hql. }
  intros self i Hbad. rewrite QtpFacts.is_valid_linked. do 2 f_equal.
  apply linked_b_false. exists i. exact Hbad.
Qed.

Lemma chain_link_invariant_witness :
  length (Quantumeth.global_chain
            (snd (Quantumeth.add_blocks [["a"]; ["b"; "c"]]
                    (Quantumeth.QuantumNetwork_init 3 "u")))) = 2
  /\ Quantumeth.validate_chain
       (snd (Quantumeth.add_blocks [["a"]; ["b"; "c"]] (Quantumeth.QuantumNetwork_init 3 "u")))
     = (Returned true,
        snd (Quantumeth.add_blocks [["a"]; ["b"; "c"]] (Quantumeth.QuantumNetwork_init 3 "u")))
  /\ Quantumeth.validate_chain Samples.forged = (Returned false, Samples.forged).
Proof.
  destruct (chain_link_invariant 3 "u" [["a"]; ["b"; "c"]]) as (Hlen & _ & Hvalid & Hbad & _).
  split; [exact Hlen |]. split; [exact Hvalid |].
  apply (Hbad Samples.forged 1). split; [lia |].
  exists (Quantumeth.mkBlock ["y"] "zz" "bb"), (Quantumeth.mkBlock ["x"] "00" "aa").
  repeat split; try reflexivity. discriminate.
Defined.

(** C5. Validation semantics. [validate_chain] returns [False] exactly when
    some index [i > 0] has [chain[i].previous_hash != chain[i-1].hash], and
    [True] otherwise, so in particular on chains of length 0 or 1; it never
    raises and leaves the network as it was. The scan runs front to back and
    stops at the first such index: the indices after it are not consulted.
    [is_valid] of qtp.py decides the same. *)
Theorem validate_semantics :
  forall (self : Quantumeth.QuantumNetwork) (bc : Qtp.QuantumBlockchain),
    let chain := Quantumeth.global_chain self in
    (Quantumeth.validate_chain self = (Returned false, self)
       <-> exists i, bad_link Quantumeth.previous_hash Quantumeth.hash chain i)
    /\ (Quantumeth.validate_chain self = (Returned true, self)
       <-> ~ exists i, bad_link Quantumeth.previous_hash Quantumeth.hash chain i)
    /\ (length chain <= 1 -> Quantumeth.validate_chain self = (Returned true, self))
    /\ snd (Quantumeth.validate_chain self) = self
    /\ (forall i later,
          bad_link Quantumeth.previous_hash Quantumeth.hash chain i ->
          (forall j, j < i -> ~ bad_link Quantumeth.previous_hash Quantumeth.hash chain j) ->
          Quantumeth.validate_loop chain (seq 1 (i - 1) ++ i :: later) = Returned false)
    /\ (Qtp.is_valid bc = (Returned false, bc)
       <-> exists i, bad_link Qtp.previous_hash Qtp.hash (Qtp.chain bc) i)
    /\ (Qtp.is_valid bc = (Returned true, bc)
       <-> ~ exists i, bad_link Qtp.previous_hash Qtp.hash (Qtp.chain bc) i).
Proof.
  intros self bc chain.
  assert (forall {B} (prev hsh : B -> string) (c : list B) (A : Type) (s : A),
            ((Returned (linked_b prev hsh c), s) = (Returned false, s)
               <-> exists i, bad_link prev hsh c i)
            /\ ((Returned (linked_b prev hsh c), s) = (Returned true, s)
               <-> ~ exists i, bad_link prev hsh c i)) as Hdec.
  { intros B prev hsh c A s. rewrite <- linked_b_false.
    destruct (linked_b prev hsh c); split; split; congruence. }
  rewrite QuantumethFacts.validate_chain_linked, QtpFacts.is_valid_linked.
  fold chain.
  destruct (Hdec _ Quantumeth.previous_hash Quantumeth.hash chain _ self) as [H1 H2].
  destruct (Hdec _ Qtp.previous_hash Qtp.hash (Qtp.chain bc) _ bc) as [H3 H4].
  split; [exact H1 |]. split; [exact H2 |]. split.
  { intros Hlen. do 2 f_equal. destruct chain as [|p [|b rest]]; try reflexivity.
    cbn [length] in Hlen. lia. }
  split; [reflexivity |]. split.
  { intros i later. apply QuantumethFacts.validate_loop_stops. }
  split; assumption.
Qed.

Lemma validate_semantics_witness :
  Quantumeth.validate_chain Samples.forged = (Returned false, Samples.forged)
  /\ Quantumeth.validate_chain Samples.single = (Returned true, Samples.single)
  /\ Quantumeth.validate_loop (Quantumeth.global_chain Samples.forged) [1; 5; 6]
     = Returned false.
Proof.
  assert (bad_link Quantumeth.previous_hash Quantumeth.hash
            (Quantumeth.global_chain Samples.forged) 1) as Hbad.
  { split; [lia |].
    exists (Quantumeth.mkBlock ["y"] "zz" "bb"), (Quantumeth.mkBlock ["x"] "00" "aa").
    repeat split; try reflexivity. discriminate. }
  split; [| split].
  - apply (proj1 (validate_semantics Samples.forged Qtp.QuantumBlockchain_init)).
    exists 1. exact Hbad.
  - apply (proj1 (proj2 (proj2 (validate_semantics Samples.single Qtp.QuantumBlockchain_init)))).
    cbn. lia.
  - apply (proj1 (proj2 (proj2 (proj2 (proj2
             (validate_semantics Samples.forged Qtp.QuantumBlockchain_init))))) 1 [5; 6] Hbad).
    intros j Hj (Hpos & _). lia.
Defined.

(** ** Genesis and the value of add_block *)

(** C6. Genesis sentinel. A call of [add_block] on a network with a producer
    node completes and appends one block whose previous hash is the hash of
    the last block of the canonical chain, or 64 zero characters when that
    chain is empty. A fresh network validates, and the first block added to
    it has 64 zeros as its previous hash. qtp.py does the same. *)
Theorem genesis_sentinel :
  (forall (self : Quantumeth.QuantumNetwork) (txs : list string)
          (node0 : Quantumeth.QuantumNode),
      Quantumeth.nodes self !! 0 = Some node0 ->
      exists b,
        fst (Quantumeth.add_block txs self) = Returned None
        /\ Quantumeth.global_chain (snd (Quantumeth.add_block txs self))
           = Quantumeth.global_chain self ++ [b]
        /\ Quantumeth.transactions b = txs
        /\ Quantumeth.previous_hash b
           = match last (Quantumeth.global_chain self) with
             | Some l => Quantumeth.hash l
             | None => "0000000000000000000000000000000000000000000000000000000000000000"
             end)
  /\ (forall num_nodes url,
        Quantumeth.validate_chain (Quantumeth.QuantumNetwork_init num_nodes url)
        = (Returned true, Quantumeth.QuantumNetwork_init num_nodes url))
  /\ (forall m url txs,
        exists b,
          Quantumeth.global_chain
            (snd (Quantumeth.add_block txs (Quantumeth.QuantumNetwork_init (S m) url))) = [b]
          /\ Quantumeth.previous_hash b
             = "0000000000000000000000000000000000000000000000000000000000000000")
  /\ (forall (bc : Qtp.QuantumBlockchain) (txs : list string),
        exists b,
          Qtp.chain (snd (Qtp.add_block txs bc)) = Qtp.chain bc ++ [b]
          /\ Qtp.previous_hash b
             = match last (Qtp.chain bc) with
               | Some l => Qtp.hash l
               | None => "0000000000000000000000000000000000000000000000000000000000000000"
               end)
  /\ Qtp.is_valid Qtp.QuantumBlockchain_init = (Returned true, Qtp.QuantumBlockchain_init).
Proof.
  split.
  { intros self txs node0 H.
    destruct (QuantumethFacts.add_block_completes self txs node0 H) as (H1 & H2 & _).
    eexists. split; [exact H1 |]. split; [exact H2 |]. split; reflexivity. }
  split.
  { intros n url. rewrite QuantumethFacts.validate_chain_linked. reflexivity. }
  split.
  { intros m url txs. rewrite QuantumethFacts.init_state, QuantumethFacts.add_block_state.
    eexists. split; reflexivity. }
  split.
  { intros bc txs. eexists. split; reflexivity. }
  reflexivity.
Qed.

Lemma genesis_sentinel_witness :
  exists b,
    fst (Quantumeth.add_block ["a"] (Quantumeth.QuantumNetwork_init 3 "u")) = Returned None
    /\ Quantumeth.global_chain
         (snd (Quantumeth.add_block ["a"] (Quantumeth.QuantumNetwork_init 3 "u")))
       = Quantumeth.global_chain (Quantumeth.QuantumNetwork_init 3 "u") ++ [b]
    /\ Quantumeth.transactions b = ["a"]
    /\ Quantumeth.previous_hash b
       = "0000000000000000000000000000000000000000000000000000000000000000".
Proof.
  exact (proj1 genesis_sentinel (Quantumeth.QuantumNetwork_init 3 "u") ["a"]
           (Quantumeth.QuantumNode_init 0) eq_refl).
Defined.

(** What one [add_block] of the Cosmos file does, in any state. *)
Lemma cosmos_add_block_outcome (result : list (string * nat)) (txs : list string)
    (self : Quantumeth.QuantumNetwork) :
  Cosmos.add_block result txs self
  = match Quantumeth.nodes self !! 0 with
    | None => (Raised (IndexError "list index out of range"), self)
    | Some _ => (Raised Cosmos.no_LocalSimulator, self)
    end.
Proof. unfold Cosmos.add_block. destruct (Quantumeth.nodes self !! 0); reflexivity. Qed.

(** C7, as the code has it. [add_block] has no return statement, so it never
    returns a block: a call that returns, returns [None]. In Quantumeth.py
    the call returns exactly when the network has a node, and the block it
    created is then the last block of the canonical chain; with no node it
    raises IndexError and changes nothing. [add_block] of qtp.py returns
    [None] on every call; the one of the Cosmos file raises on every call
    and changes nothing, so it returns no block either. *)
Theorem add_block_returns_none :
  forall (self : Quantumeth.QuantumNetwork) (txs : list string),
    let r := Quantumeth.add_block txs self in
    (forall v, fst r = Returned v -> v = None)
    /\ (forall node0,
          Quantumeth.nodes self !! 0 = Some node0 ->
          fst r = Returned None
          /\ last (Quantumeth.global_chain (snd r))
             = Some (fst (Quantumeth.create_block node0 txs
                            match last (Quantumeth.global_chain self) with
                            | Some l => Quantumeth.hash l
                            | None => genesis_hash
                            end)))
    /\ (Quantumeth.nodes self !! 0 = None ->
        r = (Raised (IndexError "list index out of range"), self))
    /\ (forall (result : list (string * nat)),
          exists e, Cosmos.add_block result txs self = (Raised e, self))
    /\ (forall (bc : Qtp.QuantumBlockchain), fst (Qtp.add_block txs bc) = Returned None).
Proof.
  intros self txs r. subst r.
  split; [| split; [| split; [| split; [| reflexivity]]]].
  - intros v Hv. destruct (Quantumeth.nodes self !! 0) as [node0|] eqn:H.
    + destruct (QuantumethFacts.add_block_completes self txs node0 H) as (H1 & _).
      rewrite H1 in Hv. injection Hv as <-. reflexivity.
    + unfold Quantumeth.add_block in Hv. rewrite H in Hv. discriminate Hv.
  - intros node0 H.
    destruct (QuantumethFacts.add_block_completes self txs node0 H) as (H1 & H2 & H3).
    split; [exact H1 |]. rewrite H2, last_snoc. reflexivity.
  - intros H. unfold Quantumeth.add_block. rewrite H. reflexivity.
  - intros result. rewrite cosmos_add_block_outcome.
    destruct (Quantumeth.nodes self !! 0); eexists; reflexivity.
Qed.

Lemma add_block_returns_none_witness :
  fst (Quantumeth.add_block ["a"; "b"] (Quantumeth.QuantumNetwork_init 2 "u")) = Returned None
  /\ last (Quantumeth.global_chain
             (snd (Quantumeth.add_block ["a"; "b"] (Quantumeth.QuantumNetwork_init 2 "u"))))
     = Some (fst (Quantumeth.create_block (Quantumeth.QuantumNode_init 0) ["a"; "b"]
                    genesis_hash)).
Proof.
  exact (proj1 (proj2 (add_block_returns_none (Quantumeth.QuantumNetwork_init 2 "u")
                         ["a"; "b"]))
           (Quantumeth.QuantumNode_init 0) eq_refl).
Defined.

(** C7 as stated fails: on a network of one node, [add_block(["a"])] does
    not return a block. *)
Lemma add_block_returns_block_counterexample :
  ~ exists b,
      fst (Quantumeth.add_block ["a"] (Quantumeth.QuantumNetwork_init 1 "u"))
      = Returned (Some b).
Proof. intros [b H]. cbv [Quantumeth.add_block] in H. cbn in H. discriminate H. Qed.

(** On a network built with no node, [add_block] raises and adds nothing. *)
Lemma add_block_without_nodes (url : string) (txs : list string) :
  Quantumeth.add_block txs (Quantumeth.QuantumNetwork_init 0 url)
  = (Raised (IndexError "list index out of range"), Quantumeth.QuantumNetwork_init 0 url).
Proof. reflexivity. Qed.

(** ** Replication *)

(** C2, as the code has it. On a network of at least one node, in any state
    reached from the fresh network by [add_block] calls, a further
    [add_block] completes, the canonical chain grows by the one new block,
    and every node other than the producer grows by that one block. The
    producer, node 0, grows by two copies of it: [create_block] appends the
    block to the producer's chain and [broadcast] appends it again. *)
Theorem replication_appends_twice_at_producer :
  forall (m : nat) (url : string) (batches : list (list string)) (txs : list string),
    let s := snd (Quantumeth.add_blocks batches (Quantumeth.QuantumNetwork_init (S m) url)) in
    let s' := snd (Quantumeth.add_block txs s) in
    exists b,
      fst (Quantumeth.add_block txs s) = Returned None
      /\ Quantumeth.global_chain s' = Quantumeth.global_chain s ++ [b]
      /\ length (Quantumeth.nodes s') = S m
      /\ Quantumeth.connected_nodes (Quantumeth.cloud s') = seq 0 (S m)
      /\ (exists node0,
            Quantumeth.nodes s !! 0 = Some node0
            /\ Quantumeth.nodes s' !! 0
               = Some (Quantumeth.mkNode (Quantumeth.node_id node0)
                         (Quantumeth.chain node0 ++ [b; b])))
      /\ (forall i, 0 < i < S m ->
            exists node,
              Quantumeth.nodes s !! i = Some node
              /\ Quantumeth.nodes s' !! i
                 = Some (Quantumeth.mkNode (Quantumeth.node_id node)
                           (Quantumeth.chain node ++ [b]))).
Proof.
  intros m url batches txs s s'. subst s' s.
  rewrite QuantumethFacts.init_state, QuantumethFacts.add_blocks_state.
  cbn [snd]. rewrite QuantumethFacts.add_block_state. cbn [fst snd].
  set (G := QuantumethStates.chain_after [] batches).
  exists (QuantumethStates.sealed txs (QuantumethStates.previous_hash_for G)).
  unfold QuantumethStates.state_of.
  cbn [Quantumeth.global_chain Quantumeth.nodes Quantumeth.cloud Quantumeth.connected_nodes].
  split; [reflexivity |]. split; [reflexivity |].
  split; [apply QuantumethFacts.length_replicas |]. split; [reflexivity |]. split.
  - eexists. split; [apply QuantumethFacts.replicas_producer |].
    rewrite QuantumethFacts.replicas_producer, QuantumethFacts.twice_snoc. reflexivity.
  - intros i Hi. eexists. split; [apply QuantumethFacts.replicas_other; exact Hi |].
    rewrite QuantumethFacts.replicas_other by exact Hi. reflexivity.
Qed.

(** The chains of a network of three nodes after one [add_block]: lengths 2,
    1 and 1 at the nodes, 1 at the canonical chain. *)
Example replication_three_nodes :
  let s' := snd (Quantumeth.add_block ["a"] (Quantumeth.QuantumNetwork_init 3 "u")) in
  map (fun node => length (Quantumeth.chain node)) (Quantumeth.nodes s') = [2; 1; 1]
  /\ length (Quantumeth.global_chain s') = 1.
Proof. split; reflexivity. Qed.

(** ** Validation reads the hash fields only *)

(** C10. Validation ignores transaction contents. Two chains whose blocks
    agree one by one on [previous_hash] and [hash] get the same answer from
    [validate_chain], whatever their transactions; so replacing the
    transactions of a block of a chain leaves the answer as it was, and a
    chain built by [add_block] still validates after such a change. The same
    holds for [is_valid] of qtp.py. *)
Theorem validate_ignores_transactions :
  (forall (self1 self2 : Quantumeth.QuantumNetwork),
      map (link_fields Quantumeth.previous_hash Quantumeth.hash) (Quantumeth.global_chain self1)
      = map (link_fields Quantumeth.previous_hash Quantumeth.hash) (Quantumeth.global_chain self2) ->
      fst (Quantumeth.validate_chain self1) = fst (Quantumeth.validate_chain self2))
  /\ (forall (self : Quantumeth.QuantumNetwork) (i : nat) (txs' : list string),
        fst (Quantumeth.validate_chain
               (Quantumeth.set_global_chain self
                  (alter (fun b => Quantumeth.mkBlock txs' (Quantumeth.previous_hash b)
                                     (Quantumeth.hash b))
                         i (Quantumeth.global_chain self))))
        = fst (Quantumeth.validate_chain self))
  /\ (forall (num_nodes : nat) (url : string) (batches : list (list string))
             (i : nat) (txs' : list string),
        let net := snd (Quantumeth.add_blocks batches
                          (Quantumeth.QuantumNetwork_init num_nodes url)) in
        fst (Quantumeth.validate_chain
               (Quantumeth.set_global_chain net
                  (alter (fun b => Quantumeth.mkBlock txs' (Quantumeth.previous_hash b)
                                     (Quantumeth.hash b))
                         i (Quantumeth.global_chain net))))
        = Returned true)
  /\ (forall (bc1 bc2 : Qtp.QuantumBlockchain),
        map (link_fields Qtp.previous_hash Qtp.hash) (Qtp.chain bc1)
        = map (link_fields Qtp.previous_hash Qtp.hash) (Qtp.chain bc2) ->
        fst (Qtp.is_valid bc1) = fst (Qtp.is_valid bc2)).
Proof.
  split; [| split; [| split]].
  - intros self1 self2 H. rewrite !QuantumethFacts.validate_chain_linked. cbn [fst].
    f_equal. apply linked_b_fields. exact H.
  - apply QuantumethFacts.validate_chain_tampered.
  - intros n url batches i txs' net.
    rewrite QuantumethFacts.validate_chain_tampered.
    apply QuantumethFacts.validate_after_add_blocks.
  - intros bc1 bc2 H. rewrite !QtpFacts.is_valid_linked. cbn [fst].
    f_equal. apply linked_b_fields. exact H.
Qed.

Lemma validate_ignores_transactions_witness :
  fst (Quantumeth.validate_chain
         (Quantumeth.mkNetwork Quantumeth.QuantumCloud_init []
            [Quantumeth.mkBlock ["pay 1"] "00" "aa"; Quantumeth.mkBlock ["pay 2"] "aa" "bb"]
            "u" None))
  = fst (Quantumeth.validate_chain
           (Quantumeth.mkNetwork Quantumeth.QuantumCloud_init []
              [Quantumeth.mkBlock ["pay 1000"] "00" "aa"; Quantumeth.mkBlock [] "aa" "bb"]
              "u" None)).
Proof.
  exact (proj1 validate_ignores_transactions
           (Quantumeth.mkNetwork Quantumeth.QuantumCloud_init []
              [Quantumeth.mkBlock ["pay 1"] "00" "aa"; Quantumeth.mkBlock ["pay 2"] "aa" "bb"]
              "u" None)
           (Quantumeth.mkNetwork Quantumeth.QuantumCloud_init []
              [Quantumeth.mkBlock ["pay 1000"] "00" "aa"; Quantumeth.mkBlock [] "aa" "bb"]
              "u" None)
           eq_refl).
Defined.

(** ** Hashing *)

(** What Quantumeth.py and quantumsolanaalgorithm.py hash: the transactions
    joined in order, then the previous hash, then the string drawn from the
    circuit. *)
Lemma create_block_hash (self : Quantumeth.QuantumNode) (txs : list string) (prev : string) :
  Quantumeth.hash (fst (Quantumeth.create_block self txs prev))
  = sha256_hexdigest ((String.concat "" txs +:+ prev) +:+ state_str).
Proof. reflexivity. Qed.

(** The Cosmos file never reaches its digest: the lookup of the simulator
    raises first. *)
Lemma cosmos_create_block_raises (result : list (string * nat))
    (self : Quantumeth.QuantumNode) (txs : list string) (prev : string) :
  Cosmos.create_block result self txs prev = Raised Cosmos.no_LocalSimulator.
Proof. reflexivity. Qed.

Example create_block_hash_a :
  Quantumeth.hash (fst (Quantumeth.create_block (Quantumeth.QuantumNode_init 0) ["a"] genesis_hash))
  = "6075699f4974a39214a170534bc61b2c16da2df7e7dfd84709781db13cd15829".
Proof. vm_compute. reflexivity. Qed.

Example create_block_hash_b :
  Quantumeth.hash (fst (Quantumeth.create_block (Quantumeth.QuantumNode_init 0) ["b"] genesis_hash))
  = "52a31762fc94d1ca084d4944f94a7a929bb092a1433e7ab387dace6fed7a1428".
Proof. vm_compute. reflexivity. Qed.

(** C3 at qtp.py. [QuantumBlock.generate_hash] digests the circuit's string
    alone: the hash of a block is the same for every transaction list and
    every previous hash, and it is not the digest of transactions, previous
    hash and circuit string that the other three files compute. *)
Theorem qtp_hash_ignores_block_contents :
  (forall (txs : list string) (prev : string),
      Qtp.hash (Qtp.QuantumBlock_init txs prev) = sha256_hexdigest state_str)
  /\ Qtp.hash (Qtp.QuantumBlock_init ["a"] genesis_hash)
     = "3ed7e74f2f5cea2c5624b6d722dbd967ee47773fb36e4d3944a1e211867ab9f5"
  /\ Qtp.hash (Qtp.QuantumBlock_init ["b"] "ff")
     = "3ed7e74f2f5cea2c5624b6d722dbd967ee47773fb36e4d3944a1e211867ab9f5"
  /\ sha256_hexdigest ((String.concat "" ["a"] +:+ genesis_hash) +:+ state_str)
     = "6075699f4974a39214a170534bc61b2c16da2df7e7dfd84709781db13cd15829".
Proof.
  split; [reflexivity |]. repeat split; vm_compute; reflexivity.
Qed.

(** ** The optimizer *)

Module ItertoolsFacts.
Import itertools.

Lemma picks_perm {A} (l : list A) (x : A) (rest : list A) :
  In (x, rest) (picks l) -> Permutation l (x :: rest).
Proof.
  revert x rest. induction l as [|a l IH]; intros x rest H; [destruct H |].
  cbn [picks] in H. destruct H as [H|H].
  - injection H as -> ->. reflexivity.
  - apply in_map_iff in H. destruct H as ([y ys] & Heq & Hin).
    cbn [fst snd] in Heq. injection Heq as -> <-.
    eapply perm_trans; [apply perm_skip, (IH _ _ Hin) | apply perm_swap].
Qed.

Lemma picks_in {A} (l : list A) (x : A) :
  In x l -> exists rest, In (x, rest) (picks l).
Proof.
  induction l as [|a l IH]; intros H; [destruct H |].
  destruct H as [->|H].
  - exists l. left. reflexivity.
  - destruct (IH H) as [rest Hr]. exists (a :: rest). right.
    apply in_map_iff. exists (x, rest). split; [reflexivity | exact Hr].
Qed.

Lemma length_picks {A} (l : list A) : length (picks l) = length l.
Proof. induction l as [|a l IH]; cbn; [| rewrite length_map, IH]; reflexivity. Qed.

Lemma picks_length {A} (l : list A) (x : A) (rest : list A) :
  In (x, rest) (picks l) -> length l = S (length rest).
Proof. intros H. apply picks_perm, Permutation_length in H. exact H. Qed.

Lemma perms_sound {A} (r : nat) (l p : list A) :
  length l = r -> In p (perms r l) -> Permutation l p.
Proof.
  revert l p. induction r as [|r IH]; intros l p Hlen H.
  - destruct l; [| discriminate]. destruct H as [<-|[]]. reflexivity.
  - cbn [perms] in H. apply in_flat_map in H. destruct H as ([x rest] & Hpick & H).
    cbn [fst snd] in H. apply in_map_iff in H. destruct H as (q & <- & Hq).
    pose proof (picks_length _ _ _ Hpick) as Hl.
    eapply perm_trans; [apply picks_perm, Hpick |].
    apply perm_skip, IH; [lia | exact Hq].
Qed.

Lemma perms_complete {A} (r : nat) (l p : list A) :
  length l = r -> Permutation l p -> In p (perms r l).
Proof.
  revert l p. induction r as [|r IH]; intros l p Hlen H.
  - destruct l; [| discriminate]. apply Permutation_nil in H. subst p. left. reflexivity.
  - destruct p as [|y p'].
    { apply Permutation_length in H. cbn in H. lia. }
    assert (In y l) as Hy.
    { eapply Permutation_in; [symmetry; exact H | left; reflexivity]. }
    destruct (picks_in l y Hy) as [rest Hpick].
    pose proof (picks_perm _ _ _ Hpick) as Hp.
    pose proof (picks_length _ _ _ Hpick) as Hl.
    cbn [perms]. apply in_flat_map. exists (y, rest). split; [exact Hpick |].
    cbn [fst snd]. apply in_map. apply IH; [lia |].
    eapply Permutation_cons_inv. eapply perm_trans; [symmetry; exact Hp | exact H].
Qed.

Lemma length_flat_map_const {A B} (f : A -> list B) (k : nat) (l : list A) :
  (forall x, In x l -> length (f x) = k) -> length (flat_map f l) = length l * k.
Proof.
  induction l as [|a l IH]; intros H; [reflexivity |].
  cbn [flat_map length]. rewrite length_app, H by (left; reflexivity).
  rewrite IH by (intros x Hx; apply H; right; exact Hx). lia.
Qed.

Lemma length_perms {A} (r : nat) (l : list A) :
  length l = r -> length (perms r l) = fact r.
Proof.
  revert l. induction r as [|r IH]; intros l Hlen; [reflexivity |].
  cbn [perms fact].
  rewrite (length_flat_map_const _ (fact r)).
  - rewrite length_picks, Hlen. lia.
  - intros [x rest] Hpick. cbn [fst snd]. rewrite length_map. apply IH.
    apply picks_length in Hpick. lia.
Qed.

Lemma permutations_spec {A} (l p : list A) :
  In p (permutations l) <-> Permutation l p.
Proof.
  split; [apply perms_sound | apply perms_complete]; reflexivity.
Qed.

Lemma length_permutations {A} (l : list A) :
  length (permutations l) = fact (length l).
Proof. apply length_perms. reflexivity. Qed.

End ItertoolsFacts.

Module OptimizerFacts.
Import Quantumeth OptimizerSpec.

Section WithHash.

Variable h : string -> Z.

Lemma cost_step_shift (a : string) (l : list string) (n k : nat) (acc : Z) :
  fold_left (cost_step h (a :: l)) (seq (S k) n) acc = fold_left (cost_step h l) (seq k n) acc.
Proof.
  revert k acc. induction n as [|n IH]; intros k acc; [reflexivity |].
  cbn [seq fold_left]. rewrite IH. reflexivity.
Qed.

Lemma cost_step_acc (l : list string) (range : list nat) (acc : Z) :
  fold_left (cost_step h l) range acc = (acc + fold_left (cost_step h l) range 0)%Z.
Proof.
  revert acc. induction range as [|i range IH]; intros acc; cbn [fold_left]; [lia |].
  rewrite IH, (IH (cost_step h l 0 i)). unfold cost_step. lia.
Qed.

Lemma calculate_cost_adjacent (order : list string) :
  calculate_cost h order = adjacent_cost h order.
Proof.
  induction order as [|a [|b l] IH]; try reflexivity.
  change (adjacent_cost h (a :: b :: l))
    with (Z.abs (h a - h b) + adjacent_cost h (b :: l))%Z.
  rewrite <- IH.
  unfold calculate_cost. fold (cost_step h (a :: b :: l)). fold (cost_step h (b :: l)).
  cbn [length]. replace (S (S (length l)) - 1) with (S (length l)) by lia.
  replace (S (length l) - 1) with (length l) by lia.
  cbn [seq fold_left]. rewrite cost_step_shift, cost_step_acc.
  unfold cost_step at 1. cbn [nth Nat.add]. lia.
Qed.

Lemma optimize_loop (init : list string) (ps : list (list string)) :
  match fold_left (optimize_step h) ps (init, None) with
  | (best, None) => ps = [] /\ best = init
  | (best, Some c) => first_least h ps best c
  end.
Proof.
  induction ps as [|q ps IH] using rev_ind; [split; reflexivity |].
  rewrite fold_left_app. cbn [fold_left].
  destruct (fold_left (optimize_step h) ps (init, None)) as [best [c|]].
  - destruct IH as (Hc & k & Hk & Hmin & Hfirst).
    pose proof (lookup_lt_Some _ _ _ Hk) as Hklt.
    unfold optimize_step. cbn [snd lt_best].
    destruct (calculate_cost h q <? c)%Z eqn:Hlt.
    + apply Z.ltb_lt in Hlt. split; [reflexivity |]. exists (length ps).
      split; [apply list_lookup_middle; reflexivity |]. split.
      * intros j p Hj. destruct (decide (j < length ps)) as [Hjl|Hjl].
        -- rewrite lookup_app_l in Hj by exact Hjl. specialize (Hmin j p Hj). lia.
        -- pose proof (lookup_lt_Some _ _ _ Hj) as Hb. rewrite length_app in Hb.
           cbn [length] in Hb. assert (j = length ps) as -> by lia.
           rewrite list_lookup_middle in Hj by reflexivity. injection Hj as <-. lia.
      * intros j p Hjl Hj. rewrite lookup_app_l in Hj by exact Hjl.
        specialize (Hmin j p Hj). lia.
    + apply Z.ltb_ge in Hlt. split; [exact Hc |]. exists k.
      split; [rewrite lookup_app_l by exact Hklt; exact Hk |]. split.
      * intros j p Hj. destruct (decide (j < length ps)) as [Hjl|Hjl].
        -- rewrite lookup_app_l in Hj by exact Hjl. exact (Hmin j p Hj).
        -- pose proof (lookup_lt_Some _ _ _ Hj) as Hb. rewrite length_app in Hb.
           cbn [length] in Hb. assert (j = length ps) as -> by lia.
           rewrite list_lookup_middle in Hj by reflexivity. injection Hj as <-. exact Hlt.
      * intros j p Hjk Hj. rewrite lookup_app_l in Hj by lia. exact (Hfirst j p Hjk Hj).
  - destruct IH as [-> ->]. unfold optimize_step. cbn [snd lt_best app].
    split; [reflexivity |]. exists 0. split; [reflexivity |]. split.
    + intros [|j] p Hj; cbn in Hj; [injection Hj as <-; lia | discriminate].
    + intros j p Hj. lia.
Qed.

End WithHash.

End OptimizerFacts.

(** C4, as the code has it. The cost is built on Python's built-in [hash],
    which is one function of the text for the life of a process and another
    in the next ([Pyhash.str_hash] of the secret of the process). Whatever
    function it is in the process that runs the call, for every input
    sequence [optimize_transaction_order] returns a permutation of the input
    whose cost, the sum over adjacent pairs of the distance between their
    hashes, is least among the n! candidates [itertools.permutations]
    enumerates, which are exactly the permutations of the input; among the
    candidates of least cost it returns the first in enumeration order. *)
Theorem optimize_returns_first_least_cost_permutation :
  forall (builtin_hash : string -> Z) (transactions : list string),
    let best := Quantumeth.optimize_transaction_order builtin_hash transactions in
    let candidates := itertools.permutations transactions in
    let cost := Quantumeth.calculate_cost builtin_hash in
    (forall order, cost order = adjacent_cost builtin_hash order)
    /\ length candidates = fact (length transactions)
    /\ (forall p, In p candidates <-> Permutation transactions p)
    /\ Permutation transactions best
    /\ (forall p, Permutation transactions p -> (cost best <= cost p)%Z)
    /\ exists k,
         candidates !! k = Some best
         /\ forall j p, j < k -> candidates !! j = Some p -> (cost best < cost p)%Z.
Proof.
  intros h txs best candidates cost.
  split; [apply OptimizerFacts.calculate_cost_adjacent |].
  split; [apply ItertoolsFacts.length_permutations |].
  split; [apply ItertoolsFacts.permutations_spec |].
  pose proof (OptimizerFacts.optimize_loop h txs candidates) as H.
  subst best. unfold Quantumeth.optimize_transaction_order. fold candidates.
  destruct (fold_left (Quantumeth.optimize_step h) candidates (txs, None)) as [best [c|]].
  - destruct H as (Hc & k & Hk & Hmin & Hfirst). cbn [fst]. fold cost in Hc, Hmin, Hfirst.
    rewrite <- Hc. split.
    + apply ItertoolsFacts.permutations_spec. fold candidates.
      apply list_elem_of_In, list_elem_of_lookup. exists k. exact Hk.
    + split.
      * intros p Hp. apply ItertoolsFacts.permutations_spec in Hp. fold candidates in Hp.
        apply list_elem_of_In, list_elem_of_lookup in Hp. destruct Hp as [j Hj].
        exact (Hmin j p Hj).
      * exists k. split; [exact Hk | exact Hfirst].
  - destruct H as [Hnil _]. exfalso.
    pose proof (ItertoolsFacts.length_permutations txs) as Hlen. fold candidates in Hlen.
    rewrite Hnil in Hlen. cbn [length] in Hlen. pose proof (lt_O_fact (length txs)). lia.
Qed.

(** [hash] of a str as two processes have it ([PYTHONHASHSEED=0] and
    [PYTHONHASHSEED=4]); the last text is "caf" followed by e with an acute
    accent. *)
Example str_hash_seed_0 :
  map (Pyhash.str_hash (Pyhash.secret_of_seed 0))
      [""; "a"; "b"; "c"; "Alice pays Bob 10 QTK";
       "caf" +:+ String (ascii_of_nat 195) (String (ascii_of_nat 169) "")]
  = [0; 4644417185603328019; -8420940591063670578; -2649405227494141838;
     3952129139009955132; 137524001917817222]%Z.
Proof. vm_compute. reflexivity. Qed.

Example str_hash_seed_4 :
  map (Pyhash.str_hash (Pyhash.secret_of_seed 4))
      [""; "a"; "b"; "c"; "Alice pays Bob 10 QTK";
       "caf" +:+ String (ascii_of_nat 195) (String (ascii_of_nat 169) "")]
  = [0; -6546012322687333876; -8016489519319035310; 9067884983324217723;
     6471050866258835492; 4418698394896092526]%Z.
Proof. vm_compute. reflexivity. Qed.

(** C4 as stated fails: the cost is not built on a process-independent hash.
    The input [["a"; "b"; "c"]] comes back as [["a"; "c"; "b"]] from a
    process started with [PYTHONHASHSEED=0] and as [["b"; "a"; "c"]] from one
    started with [PYTHONHASHSEED=4], so there is no one hash of the texts
    under which what every process returns is the first candidate of least
    cost. *)
Lemma optimize_differs_between_processes_counterexample :
  Quantumeth.optimize_transaction_order (Pyhash.str_hash (Pyhash.secret_of_seed 0))
    ["a"; "b"; "c"]
  = ["a"; "c"; "b"]
  /\ Quantumeth.optimize_transaction_order (Pyhash.str_hash (Pyhash.secret_of_seed 4))
       ["a"; "b"; "c"]
     = ["b"; "a"; "c"]
  /\ ~ exists stable_hash : string -> Z,
        forall seed : Z,
        exists cost : Z,
          OptimizerSpec.first_least stable_hash (itertools.permutations ["a"; "b"; "c"])
            (Quantumeth.optimize_transaction_order
               (Pyhash.str_hash (Pyhash.secret_of_seed seed)) ["a"; "b"; "c"])
            cost.
Proof.
  assert (Quantumeth.optimize_transaction_order (Pyhash.str_hash (Pyhash.secret_of_seed 0))
            ["a"; "b"; "c"] = ["a"; "c"; "b"]) as E0 by (vm_compute; reflexivity).
  assert (Quantumeth.optimize_transaction_order (Pyhash.str_hash (Pyhash.secret_of_seed 4))
            ["a"; "b"; "c"] = ["b"; "a"; "c"]) as E4 by (vm_compute; reflexivity).
  split; [exact E0 |]. split; [exact E4 |].
  intros [h H].
  destruct (H 0%Z) as (c0 & Hc0 & k0 & Hk0 & Hmin0 & _).
  destruct (H 4%Z) as (c4 & Hc4 & k4 & Hk4 & _ & Hfirst4).
  rewrite E0 in Hc0, Hk0. rewrite E4 in Hc4, Hk4.
  assert (itertools.permutations ["a"; "b"; "c"]
          = [["a"; "b"; "c"]; ["a"; "c"; "b"]; ["b"; "a"; "c"];
             ["b"; "c"; "a"]; ["c"; "a"; "b"]; ["c"; "b"; "a"]]) as Ep
    by (vm_compute; reflexivity).
  rewrite Ep in Hk0, Hk4, Hmin0, Hfirst4.
  assert (k4 = 2) as ->.
  { destruct k4 as [|[|[|[|[|[|k]]]]]]; cbn in Hk4; try discriminate Hk4; reflexivity. }
  pose proof (Hmin0 2 ["b"; "a"; "c"] eq_refl) as Hle.
  pose proof (Hfirst4 1 ["a"; "c"; "b"] ltac:(lia) eq_refl) as Hlt.
  rewrite Hc0 in Hle. rewrite Hc4 in Hlt. lia.
Qed.

(** C8. Optimizer identity on trivial input: the empty sequence comes back
    empty and a sequence of one element comes back unchanged. *)
Theorem optimize_trivial_input :
  forall (stable_hash : string -> Z),
    Quantumeth.optimize_transaction_order stable_hash [] = []
    /\ forall x, Quantumeth.optimize_transaction_order stable_hash [x] = [x].
Proof. intros h. split; [| intros x]; reflexivity. Qed.

Example optimize_by_length :
  Quantumeth.optimize_transaction_order (fun s => Z.of_nat (String.length s))
    ["aaa"; "b"; "cc"; "dddd"]
  = ["b"; "cc"; "aaa"; "dddd"].
Proof. vm_compute. reflexivity. Qed.

(** All orders cost the same under a constant hash: the first candidate, the
    input order, is kept. *)
Example optimize_ties_keep_first :
  Quantumeth.optimize_transaction_order (fun _ => 7%Z) ["c"; "a"; "b"] = ["c"; "a"; "b"].
Proof. vm_compute. reflexivity. Qed.

(** ** Ledger operations before a contract is deployed *)

Section LedgerClaims.

Variables World Tx SignedTx TxHash : Type.
Variable get_transaction_count : string -> World -> Quantumeth.reply Z * World.
Variable gas_price : World -> Quantumeth.reply Z * World.
Variable estimate_gas : Tx -> World -> Quantumeth.reply Z * World.
Variable build_transfer :
  Quantumeth.Contract -> string -> Z -> Quantumeth.TxParams -> World -> Quantumeth.reply Tx * World.
Variable sign_transaction : Tx -> string -> World -> Quantumeth.reply SignedTx * World.
Variable send_raw_transaction : SignedTx -> World -> Quantumeth.reply TxHash * World.

Local Abbreviation create_transaction :=
  (Quantumeth.create_transaction get_transaction_count gas_price estimate_gas
     build_transfer sign_transaction send_raw_transaction).
Local Abbreviation transfer_erc20 :=
  (Quantumeth.transfer_erc20 get_transaction_count build_transfer
     sign_transaction send_raw_transaction).

Local Abbreviation client_succeeds :=
  (client_succeeds get_transaction_count gas_price estimate_gas build_transfer
     sign_transaction send_raw_transaction).

Ltac run_ledger :=
  unfold Quantumeth.create_transaction, Quantumeth.transfer_erc20,
    Quantumeth.calculate_gas, Quantumeth.bind, Quantumeth.call,
    Quantumeth.ret, Quantumeth.raise in *.

(** With a contract in place, the only exceptions are the client's. *)
Lemma create_transaction_configured (self : Quantumeth.QuantumNetwork)
    (c : Quantumeth.Contract) (sender recipient : string) (amount : Z) (key : string)
    (w : World) (e : exn) :
  Quantumeth.contract self = Some c ->
  fst (create_transaction self sender recipient amount key w) = Raised e ->
  exists msg, e = ConnectorError msg.
Proof.
  intros Hc H. run_ledger. rewrite Hc in H.
  repeat case_match; cbn [fst] in H; simplify_eq; eauto.
Qed.

Lemma transfer_erc20_configured (self : Quantumeth.QuantumNetwork)
    (c : Quantumeth.Contract) (recipient : string) (amount : Z) (sender key : string)
    (w : World) (e : exn) :
  Quantumeth.contract self = Some c ->
  fst (transfer_erc20 self recipient amount sender key w) = Raised e ->
  exists msg, e = ConnectorError msg.
Proof.
  intros Hc H. run_ledger. rewrite Hc in H.
  repeat case_match; cbn [fst] in H; simplify_eq; eauto.
Qed.

Ltac client_reply H w :=
  let E := fresh "E" in
  destruct (H w) as (? & ? & E); rewrite E; cbv beta iota.

Lemma create_transaction_returns (self : Quantumeth.QuantumNetwork)
    (c : Quantumeth.Contract) (sender recipient : string) (amount : Z) (key : string)
    (w : World) :
  client_succeeds ->
  Quantumeth.contract self = Some c ->
  exists tx_hash w', create_transaction self sender recipient amount key w = (Returned tx_hash, w').
Proof.
  intros (Hcount & Hprice & Hgas & Hbuild & Hsign & Hsend) Hc. run_ledger. rewrite Hc.
  client_reply (Hcount sender) w.
  match goal with |- context [gas_price ?w1] => client_reply Hprice w1 end.
  match goal with |- context [build_transfer ?c ?r ?a ?p ?w1] =>
    client_reply (Hbuild c r a p) w1 end.
  match goal with |- context [estimate_gas ?t ?w1] => client_reply (Hgas t) w1 end.
  match goal with |- context [gas_price ?w1] => client_reply Hprice w1 end.
  match goal with |- context [sign_transaction ?t ?k ?w1] => client_reply (Hsign t k) w1 end.
  match goal with |- context [send_raw_transaction ?t ?w1] => client_reply (Hsend t) w1 end.
  eauto.
Qed.

Lemma transfer_erc20_returns (self : Quantumeth.QuantumNetwork)
    (c : Quantumeth.Contract) (recipient : string) (amount : Z) (sender key : string)
    (w : World) :
  client_succeeds ->
  Quantumeth.contract self = Some c ->
  exists w', transfer_erc20 self recipient amount sender key w = (Returned tt, w').
Proof.
  intros (Hcount & Hprice & Hgas & Hbuild & Hsign & Hsend) Hc. run_ledger. rewrite Hc.
  client_reply (Hcount sender) w.
  match goal with |- context [build_transfer ?c ?r ?a ?p ?w1] =>
    client_reply (Hbuild c r a p) w1 end.
  match goal with |- context [sign_transaction ?t ?k ?w1] => client_reply (Hsign t k) w1 end.
  match goal with |- context [send_raw_transaction ?t ?w1] => client_reply (Hsend t) w1 end.
  eauto.
Qed.

(** C9. Not-configured precondition. While no contract is deployed, as on
    every fresh network, [create_transaction] and [transfer_erc20] raise
    ValueError("ERC20 contract not deployed.") at once: no call reaches the
    client, whose state is left as it was, and nothing is returned. They
    raise this error exactly when the contract is absent: with a contract in
    place the only exceptions are those of the client itself, and against a
    client whose calls all succeed they return. *)
Theorem not_configured_precondition :
  forall (self : Quantumeth.QuantumNetwork) (a b : string) (amount : Z) (key : string)
         (w : World),
    let not_deployed := ValueError "ERC20 contract not deployed." in
    (Quantumeth.contract self = None ->
       create_transaction self a b amount key w = (Raised not_deployed, w)
       /\ transfer_erc20 self b amount a key w = (Raised not_deployed, w))
    /\ (fst (create_transaction self a b amount key w) = Raised not_deployed
        <-> Quantumeth.contract self = None)
    /\ (fst (transfer_erc20 self b amount a key w) = Raised not_deployed
        <-> Quantumeth.contract self = None)
    /\ (forall c e,
          Quantumeth.contract self = Some c ->
          fst (create_transaction self a b amount key w) = Raised e
          \/ fst (transfer_erc20 self b amount a key w) = Raised e ->
          exists msg, e = ConnectorError msg)
    /\ (forall c,
          client_succeeds ->
          Quantumeth.contract self = Some c ->
          (exists tx_hash w', create_transaction self a b amount key w = (Returned tx_hash, w'))
          /\ (exists w', transfer_erc20 self b amount a key w = (Returned tt, w')))
    /\ (forall num_nodes url,
          Quantumeth.contract (Quantumeth.QuantumNetwork_init num_nodes url) = None).
Proof.
  intros self a b amount key w not_deployed.
  assert (Quantumeth.contract self = None ->
          create_transaction self a b amount key w = (Raised not_deployed, w)
          /\ transfer_erc20 self b amount a key w = (Raised not_deployed, w)) as Hnone.
  { intros Hc. run_ledger. rewrite Hc. split; reflexivity. }
  split; [exact Hnone |]. split; [| split; [| split; [| split]]].
  - split.
    + intros H. destruct (Quantumeth.contract self) as [c|] eqn:Hc; [| reflexivity].
      destruct (create_transaction_configured self c a b amount key w _ Hc H) as [msg Hm].
      discriminate Hm.
    + intros Hc. destruct (Hnone Hc) as [-> _]. reflexivity.
  - split.
    + intros H. destruct (Quantumeth.contract self) as [c|] eqn:Hc; [| reflexivity].
      destruct (transfer_erc20_configured self c b amount a key w _ Hc H) as [msg Hm].
      discriminate Hm.
    + intros Hc. destruct (Hnone Hc) as [_ ->]. reflexivity.
  - intros c e Hc [H|H].
    + exact (create_transaction_configured self c a b amount key w e Hc H).
    + exact (transfer_erc20_configured self c b amount a key w e Hc H).
  - intros c Hclient Hc. split.
    + exact (create_transaction_returns self c a b amount key w Hclient Hc).
    + exact (transfer_erc20_returns self c b amount a key w Hclient Hc).
  - reflexivity.
Qed.

End LedgerClaims.

Lemma stub_client_succeeds :
  client_succeeds StubClient.get_transaction_count StubClient.gas_price
    StubClient.estimate_gas StubClient.build_transfer
    StubClient.sign_transaction StubClient.send_raw_transaction.
Proof. repeat split; intros; intros w; eexists _, _; reflexivity. Qed.

(** Against the stand-in client: on a fresh network both operations raise
    and the log of client calls stays empty; with a contract deployed both
    return. *)
Lemma not_configured_precondition_witness :
  (StubClient.create_transaction (Quantumeth.QuantumNetwork_init 3 "u") "alice" "bob" 100 "key" []
   = (Raised (ValueError "ERC20 contract not deployed."), [])
   /\ StubClient.transfer_erc20 (Quantumeth.QuantumNetwork_init 3 "u") "bob" 100 "alice" "key" []
      = (Raised (ValueError "ERC20 contract not deployed."), []))
  /\ ((exists tx_hash w',
         StubClient.create_transaction Samples.deployed "alice" "bob" 100 "key" []
         = (Returned tx_hash, w'))
      /\ (exists w',
            StubClient.transfer_erc20 Samples.deployed "bob" 100 "alice" "key" []
            = (Returned tt, w'))).
Proof.
  split.
  - exact (proj1 (not_configured_precondition _ _ _ _
                    StubClient.get_transaction_count StubClient.gas_price
                    StubClient.estimate_gas StubClient.build_transfer
                    StubClient.sign_transaction StubClient.send_raw_transaction
                    (Quantumeth.QuantumNetwork_init 3 "u") "alice" "bob" 100%Z "key" [])
             eq_refl).
  - exact (proj1 (proj2 (proj2 (proj2 (proj2
             (not_configured_precondition _ _ _ _
                StubClient.get_transaction_count StubClient.gas_price
                StubClient.estimate_gas StubClient.build_transfer
                StubClient.sign_transaction StubClient.send_raw_transaction
                Samples.deployed "alice" "bob" 100%Z "key" [])))))
             (Quantumeth.mkContract "0xc0ffee" "[ABI_JSON]")
             stub_client_succeeds eq_refl).
Defined.

(** With a contract deployed the guard lets the call through: the client is
    called in the order of the method body and its transaction hash comes
    back. *)
Example create_transaction_after_deployment :
  StubClient.create_transaction Samples.deployed "alice" "bob" 100 "key" []
  = (Returned "0xhash",
     ["get_transaction_count"; "gas_price"; "build_transaction"; "estimate_gas";
      "gas_price"; "sign_transaction"; "send_raw_transaction"]).
Proof. reflexivity. Qed.

(** * Further properties of the chain engine *)

Module NetworkFacts.
Import Quantumeth QuantumethStates NetworkSteps.

Lemma add_block_commit (txs : list string) (self : QuantumNetwork) :
  add_block txs self
  = match nodes self !! 0 with
    | None => (Raised (IndexError "list index out of range"), self)
    | Some node0 =>
        (Returned None, commit self node0 (sealed txs (previous_hash_for (global_chain self))))
    end.
Proof. unfold add_block. destruct (nodes self !! 0); reflexivity. Qed.

(** What a broadcast leaves at each position of the store. *)
Lemma broadcast_lookup (c : QuantumCloud) (block : Block) (store : list QuantumNode) (i : nat) :
  broadcast c block store !! i
  = (fun node => mkNode (node_id node) (chain node ++ repeat block (registrations c i)))
      <$> store !! i.
Proof.
  destruct c as [refs]. unfold broadcast, registrations. cbn [connected_nodes].
  revert store. induction refs as [|r refs IH]; intros store.
  - cbn. destruct (store !! i) as [[id ch]|]; cbn; [rewrite app_nil_r |]; reflexivity.
  - cbn [fold_left count_occ]. rewrite IH, list_lookup_alter.
    destruct (Nat.eq_dec r i) as [->|Hne].
    + rewrite decide_True by reflexivity.
      destruct (store !! i) as [[id ch]|]; cbn; [| reflexivity].
      rewrite <- app_assoc. reflexivity.
    + rewrite decide_False by exact Hne. reflexivity.
Qed.

Lemma length_broadcast (c : QuantumCloud) (block : Block) (store : list QuantumNode) :
  length (broadcast c block store) = length store.
Proof.
  destruct c as [refs]. unfold broadcast. cbn [connected_nodes].
  revert store. induction refs as [|r refs IH]; intros store; [reflexivity |].
  cbn [fold_left]. rewrite IH. apply length_alter.
Qed.

(** The nodes after [commit], position by position. *)
Lemma commit_lookup (self : QuantumNetwork) (node0 : QuantumNode) (b : Block) (i : nat) :
  nodes self !! 0 = Some node0 ->
  nodes (commit self node0 b) !! i
  = (fun node =>
       mkNode (node_id node)
         (chain node ++ repeat b ((if decide (i = 0) then 1 else 0) + registrations (cloud self) i)))
      <$> nodes self !! i.
Proof.
  intros H0. unfold commit. cbn [set_nodes set_global_chain nodes cloud global_chain].
  rewrite broadcast_lookup.
  destruct (decide (i = 0)) as [->|Hi].
  - rewrite list_lookup_insert_eq by (eapply lookup_lt_Some; exact H0). rewrite H0.
    cbn. rewrite <- app_assoc. reflexivity.
  - rewrite list_lookup_insert_ne by (intros E; apply Hi; symmetry; exact E). reflexivity.
Qed.

Lemma commit_fields (self : QuantumNetwork) (node0 : QuantumNode) (b : Block) :
  cloud (commit self node0 b) = cloud self
  /\ web3 (commit self node0 b) = web3 self
  /\ contract (commit self node0 b) = contract self
  /\ global_chain (commit self node0 b) = global_chain self ++ [b]
  /\ length (nodes (commit self node0 b)) = length (nodes self).
Proof.
  unfold commit. cbn [set_nodes set_global_chain nodes cloud global_chain web3 contract].
  repeat split. rewrite length_broadcast. apply length_insert.
Qed.

Lemma commit_node_ids (self : QuantumNetwork) (node0 : QuantumNode) (b : Block) :
  nodes self !! 0 = Some node0 ->
  map node_id (nodes (commit self node0 b)) = map node_id (nodes self).
Proof.
  intros H0. apply list_eq. intros i.
  rewrite !QuantumethFacts.lookup_map, (commit_lookup self node0 b i H0).
  destruct (nodes self !! i); reflexivity.
Qed.

(** A chain with one more block: the new link is the only one to check. *)
Lemma linked_b_snoc {B} (prev hsh : B -> string) (c : list B) (b : B) :
  linked_b prev hsh (c ++ [b])
  = linked_b prev hsh c
    && match last c with
       | Some l => bool_decide (prev b = hsh l)
       | None => true
       end.
Proof.
  induction c as [|p [|q rest] IH]; [reflexivity | |].
  - cbn. rewrite andb_true_r. reflexivity.
  - change (linked_b prev hsh ((p :: q :: rest) ++ [b]))
      with (bool_decide (prev q = hsh p) && linked_b prev hsh ((q :: rest) ++ [b])).
    change (linked_b prev hsh (p :: q :: rest))
      with (bool_decide (prev q = hsh p) && linked_b prev hsh (q :: rest)).
    rewrite IH, last_cons_cons, andb_assoc. reflexivity.
Qed.

Lemma linked_b_pointing {B} (prev hsh : B -> string) (c : list B) (b : B) :
  (forall l, last c = Some l -> prev b = hsh l) ->
  linked_b prev hsh (c ++ [b]) = linked_b prev hsh c.
Proof.
  intros H. rewrite linked_b_snoc. destruct (last c) as [l|].
  - rewrite bool_decide_eq_true_2 by (apply H; reflexivity). apply andb_true_r.
  - apply andb_true_r.
Qed.

(** Segments of a linked chain are linked. *)
Lemma linked_b_tail {B} (prev hsh : B -> string) (p : B) (c : list B) :
  linked_b prev hsh (p :: c) = true -> linked_b prev hsh c = true.
Proof.
  destruct c as [|q rest]; [reflexivity |].
  change (linked_b prev hsh (p :: q :: rest))
    with (bool_decide (prev q = hsh p) && linked_b prev hsh (q :: rest)).
  intros H. apply andb_true_iff in H. apply H.
Qed.

Lemma linked_b_drop {B} (prev hsh : B -> string) (n : nat) (c : list B) :
  linked_b prev hsh c = true -> linked_b prev hsh (drop n c) = true.
Proof.
  revert c. induction n as [|n IH]; intros c H; [exact H |].
  destruct c as [|p c]; [reflexivity |]. cbn [drop]. apply IH.
  eapply linked_b_tail. exact H.
Qed.

Lemma linked_b_take {B} (prev hsh : B -> string) (n : nat) (c : list B) :
  linked_b prev hsh c = true -> linked_b prev hsh (take n c) = true.
Proof.
  revert c. induction n as [|n IH]; intros c H; [reflexivity |].
  destruct c as [|p [|q rest]]; [reflexivity | destruct n; reflexivity |].
  change (linked_b prev hsh (p :: q :: rest))
    with (bool_decide (prev q = hsh p) && linked_b prev hsh (q :: rest)) in H.
  apply andb_true_iff in H. destruct H as [H1 H2].
  specialize (IH (q :: rest) H2). destruct n as [|n]; [reflexivity |].
  change (linked_b prev hsh (p :: q :: take n rest) = true).
  change (linked_b prev hsh (q :: take n rest) = true) in IH.
  change (bool_decide (prev q = hsh p) && linked_b prev hsh (q :: take n rest) = true).
  rewrite H1, IH. reflexivity.
Qed.

(** The first block's previous hash plays no part. *)
Lemma linked_b_first {B} (prev hsh : B -> string) (p p' : B) (c : list B) :
  hsh p = hsh p' -> linked_b prev hsh (p :: c) = linked_b prev hsh (p' :: c).
Proof.
  intros H. destruct c as [|q rest]; [reflexivity |].
  change (bool_decide (prev q = hsh p) && linked_b prev hsh (q :: rest)
          = bool_decide (prev q = hsh p') && linked_b prev hsh (q :: rest)).
  rewrite H. reflexivity.
Qed.

End NetworkFacts.

Module ChainFacts.
Import Quantumeth QuantumethStates NetworkSteps.

Lemma extends_refl {A} (l : list A) : extends l l.
Proof. exists []. rewrite app_nil_r. reflexivity. Qed.

Lemma extends_trans {A} (l1 l2 l3 : list A) : extends l1 l2 -> extends l2 l3 -> extends l1 l3.
Proof. intros [e1 ->] [e2 ->]. exists (e1 ++ e2). rewrite app_assoc. reflexivity. Qed.

Lemma transactions_chain_after (batches : list (list string)) (G : list Block) :
  map transactions (chain_after G batches) = map transactions G ++ batches.
Proof.
  revert G. induction batches as [|txs rest IH]; intros G; cbn [chain_after fold_left].
  - rewrite app_nil_r. reflexivity.
  - unfold chain_after in IH. rewrite IH, map_app, <- app_assoc. reflexivity.
Qed.

Lemma digests_chain_after (batches : list (list string)) (G : list Block) :
  Forall (fun b => hash b = digest_of b) G ->
  Forall (fun b => hash b = digest_of b) (chain_after G batches).
Proof.
  revert G. induction batches as [|txs rest IH]; intros G HG; [exact HG |].
  cbn [chain_after fold_left]. apply IH. apply Forall_app. split; [exact HG |].
  constructor; [reflexivity | constructor].
Qed.

(** One [add_block], on any state: what happens to each chain. *)
Lemma add_block_grows (txs : list string) (self : QuantumNetwork) :
  extends (global_chain self) (global_chain (snd (add_block txs self)))
  /\ forall i node, nodes self !! i = Some node ->
       exists node', nodes (snd (add_block txs self)) !! i = Some node'
                     /\ node_id node' = node_id node
                     /\ extends (chain node) (chain node').
Proof.
  rewrite NetworkFacts.add_block_commit.
  destruct (nodes self !! 0) as [node0|] eqn:H0; cbn [snd].
  - split.
    + destruct (NetworkFacts.commit_fields self node0
                  (sealed txs (previous_hash_for (global_chain self)))) as (_ & _ & _ & -> & _).
      eexists. reflexivity.
    + intros i node Hi. rewrite (NetworkFacts.commit_lookup _ _ _ i H0), Hi. cbn.
      eexists. split; [reflexivity |]. split; [reflexivity |]. eexists. reflexivity.
  - split; [apply extends_refl |]. intros i node Hi. exists node.
    split; [exact Hi |]. split; [reflexivity | apply extends_refl].
Qed.

Lemma add_block_verdict (txs : list string) (self : QuantumNetwork) :
  fst (validate_chain (snd (add_block txs self))) = fst (validate_chain self).
Proof.
  rewrite !QuantumethFacts.validate_chain_linked. cbn [fst]. f_equal.
  rewrite NetworkFacts.add_block_commit.
  destruct (nodes self !! 0) as [node0|]; cbn [snd]; [| reflexivity].
  destruct (NetworkFacts.commit_fields self node0
              (sealed txs (previous_hash_for (global_chain self)))) as (_ & _ & _ & -> & _).
  apply NetworkFacts.linked_b_pointing. intros l Hl.
  unfold previous_hash_for. rewrite Hl. reflexivity.
Qed.

(** The Cosmos script, from any state: it ends at its first call and the
    network is as it was. *)
Lemma cosmos_add_blocks_run (calls : list (list (string * nat) * list string))
    (self : QuantumNetwork) :
  Cosmos.add_blocks calls self
  = (match calls, nodes self !! 0 with
     | [], _ => Returned tt
     | _ :: _, None => Raised (IndexError "list index out of range")
     | _ :: _, Some _ => Raised Cosmos.no_LocalSimulator
     end, self).
Proof.
  destruct calls as [|[result txs] rest]; [reflexivity |].
  cbn [Cosmos.add_blocks]. rewrite cosmos_add_block_outcome.
  destruct (nodes self !! 0); reflexivity.
Qed.

End ChainFacts.

(** X1. The canonical chain records the batches. On a network with at least
    one node, after any run of [add_block] calls from the fresh state, the
    transactions of the blocks of the canonical chain are the batches in
    call order, and every block of the canonical chain and of every node
    carries the digest of its own transactions, previous hash and circuit
    string. *)
Theorem chain_records_batches :
  forall (m : nat) (url : string) (batches : list (list string)),
    let net := snd (Quantumeth.add_blocks batches (Quantumeth.QuantumNetwork_init (S m) url)) in
    map Quantumeth.transactions (Quantumeth.global_chain net) = batches
    /\ Forall (fun b => Quantumeth.hash b = NetworkSteps.digest_of b) (Quantumeth.global_chain net)
    /\ Forall (fun node =>
                 Forall (fun b => Quantumeth.hash b = NetworkSteps.digest_of b)
                        (Quantumeth.chain node))
              (Quantumeth.nodes net).
Proof.
  intros m url batches net. subst net.
  rewrite QuantumethFacts.init_state, QuantumethFacts.add_blocks_state.
  cbn [snd QuantumethStates.state_of Quantumeth.global_chain Quantumeth.nodes].
  pose proof (ChainFacts.digests_chain_after batches [] ltac:(constructor)) as HG.
  split; [apply (ChainFacts.transactions_chain_after batches []) |].
  split; [exact HG |].
  unfold QuantumethStates.replicas. constructor.
  - cbn [Quantumeth.chain]. unfold QuantumethStates.twice.
    apply List.Forall_forall. intros b Hb. apply in_flat_map in Hb.
    destruct Hb as (b' & Hb' & Hin). rewrite List.Forall_forall in HG.
    destruct Hin as [<-|[<-|[]]]; apply HG, Hb'.
  - apply List.Forall_forall. intros node Hn. apply in_map_iff in Hn.
    destruct Hn as (i & <- & _). exact HG.
Qed.

(** X2. Replicas. After any run of [add_block] calls on a fresh network of at
    least one node, the number of nodes is as built, the chain of every node
    other than node 0 is the canonical chain, and the chain of node 0 is the
    canonical chain with every block twice. *)
Theorem replicas_mirror_canonical_chain :
  forall (m : nat) (url : string) (batches : list (list string)),
    let net := snd (Quantumeth.add_blocks batches (Quantumeth.QuantumNetwork_init (S m) url)) in
    length (Quantumeth.nodes net) = S m
    /\ (forall i, 0 < i < S m ->
          Quantumeth.nodes net !! i = Some (Quantumeth.mkNode i (Quantumeth.global_chain net)))
    /\ Quantumeth.nodes net !! 0
       = Some (Quantumeth.mkNode 0 (flat_map (fun b => [b; b]) (Quantumeth.global_chain net))).
Proof.
  intros m url batches net. subst net.
  rewrite QuantumethFacts.init_state, QuantumethFacts.add_blocks_state.
  cbn [snd QuantumethStates.state_of Quantumeth.global_chain Quantumeth.nodes].
  split; [apply QuantumethFacts.length_replicas |]. split.
  - intros i Hi. apply QuantumethFacts.replicas_other. exact Hi.
  - reflexivity.
Qed.

(** X3. A broadcast appends to a node once per registration. Whatever the
    cloud and the store, [broadcast] keeps the number of nodes and their
    ids and appends the block to the chain at each position as many times
    as that position is registered (not at all when it is not); each
    [connect_node] adds one registration; on a fresh network every node is
    registered once. *)
Theorem broadcast_appends_once_per_registration :
  forall (c : Quantumeth.QuantumCloud) (block : Quantumeth.Block)
         (store : list Quantumeth.QuantumNode) (i : nat),
    length (Quantumeth.broadcast c block store) = length store
    /\ Quantumeth.broadcast c block store !! i
       = (fun node =>
            Quantumeth.mkNode (Quantumeth.node_id node)
              (Quantumeth.chain node ++ repeat block (NetworkSteps.registrations c i)))
           <$> store !! i
    /\ (forall r,
          NetworkSteps.registrations (Quantumeth.connect_node c r) i
          = NetworkSteps.registrations c i + (if decide (r = i) then 1 else 0))
    /\ (forall num_nodes url,
          NetworkSteps.registrations
            (Quantumeth.cloud (Quantumeth.QuantumNetwork_init num_nodes url)) i
          = if decide (i < num_nodes) then 1 else 0).
Proof.
  intros c block store i.
  split; [apply NetworkFacts.length_broadcast |].
  split; [apply NetworkFacts.broadcast_lookup |]. split.
  - intros r. unfold NetworkSteps.registrations, Quantumeth.connect_node.
    cbn [Quantumeth.connected_nodes]. rewrite count_occ_app. cbn [count_occ].
    destruct (Nat.eq_dec r i) as [E|E]; [rewrite decide_True by exact E
                                        | rewrite decide_False by exact E]; reflexivity.
  - intros n url. rewrite QuantumethFacts.init_state. unfold NetworkSteps.registrations.
    cbn [QuantumethStates.state_of Quantumeth.cloud Quantumeth.connected_nodes].
    destruct (decide (i < n)) as [Hlt|Hge].
    + apply (proj1 (NoDup_count_occ' Nat.eq_dec (seq 0 n)) (seq_NoDup n 0) i).
      apply in_seq. lia.
    + apply count_occ_not_In. rewrite in_seq. lia.
Qed.

(** X4. What [add_block] leaves alone. In any state, [add_block] keeps the
    cloud, the client URL, the contract and the ids of the nodes; it raises
    IndexError, changing nothing, exactly when the network has no node, and
    returns [None] exactly when it has one. *)
Theorem add_block_frame :
  forall (txs : list string) (self : Quantumeth.QuantumNetwork),
    let r := Quantumeth.add_block txs self in
    Quantumeth.cloud (snd r) = Quantumeth.cloud self
    /\ Quantumeth.web3 (snd r) = Quantumeth.web3 self
    /\ Quantumeth.contract (snd r) = Quantumeth.contract self
    /\ map Quantumeth.node_id (Quantumeth.nodes (snd r))
       = map Quantumeth.node_id (Quantumeth.nodes self)
    /\ (Quantumeth.nodes self = []
        <-> r = (Raised (IndexError "list index out of range"), self))
    /\ (Quantumeth.nodes self <> [] <-> fst r = Returned None).
Proof.
  intros txs self r. subst r. rewrite NetworkFacts.add_block_commit.
  destruct (Quantumeth.nodes self) as [|node0 rest] eqn:Hn; cbn [lookup list_lookup fst snd].
  - repeat split; try reflexivity; try congruence.
  - assert (Quantumeth.nodes self !! 0 = Some node0) as H0 by (rewrite Hn; reflexivity).
    set (b := QuantumethStates.sealed txs _).
    destruct (NetworkFacts.commit_fields self node0 b) as (H1 & H2 & H3 & _ & _).
    pose proof (NetworkFacts.commit_node_ids self node0 b H0) as H4. rewrite Hn in H4.
    repeat split; try assumption; try discriminate; try reflexivity.
Qed.

(** X5. Chains only grow. From any state and through any run of [add_block]
    calls, ended by an exception or not, the canonical chain afterwards is
    the canonical chain before with blocks appended, and so is the chain of
    every node, whose id stays. *)
Theorem chains_only_grow :
  forall (batches : list (list string)) (self : Quantumeth.QuantumNetwork),
    let s' := snd (Quantumeth.add_blocks batches self) in
    NetworkSteps.extends (Quantumeth.global_chain self) (Quantumeth.global_chain s')
    /\ forall i node,
         Quantumeth.nodes self !! i = Some node ->
         exists node',
           Quantumeth.nodes s' !! i = Some node'
           /\ Quantumeth.node_id node' = Quantumeth.node_id node
           /\ NetworkSteps.extends (Quantumeth.chain node) (Quantumeth.chain node').
Proof.
  induction batches as [|txs rest IH]; intros self s'; subst s'.
  - cbn. split; [apply ChainFacts.extends_refl |]. intros i node Hi. exists node.
    split; [exact Hi |]. split; [reflexivity | apply ChainFacts.extends_refl].
  - cbn [Quantumeth.add_blocks].
    destruct (ChainFacts.add_block_grows txs self) as [Hg Hn].
    destruct (Quantumeth.add_block txs self) as [[v|e] s1]; cbn [snd] in *.
    + destruct (IH s1) as [Hg' Hn']. split.
      * eapply ChainFacts.extends_trans; eassumption.
      * intros i node Hi. destruct (Hn i node Hi) as (n1 & H1 & Hid1 & He1).
        destruct (Hn' i n1 H1) as (n2 & H2 & Hid2 & He2). exists n2.
        split; [exact H2 |]. split; [congruence |].
        eapply ChainFacts.extends_trans; eassumption.
    + split; assumption.
Qed.

(** X6. Adding blocks never changes the verdict. In any state,
    [validate_chain] answers after one [add_block], and after any run of
    them, what it answered before: a valid chain stays valid and a chain
    with a broken link is not repaired by appending. *)
Theorem add_block_keeps_verdict :
  forall (batches : list (list string)) (txs : list string) (self : Quantumeth.QuantumNetwork),
    fst (Quantumeth.validate_chain (snd (Quantumeth.add_block txs self)))
    = fst (Quantumeth.validate_chain self)
    /\ fst (Quantumeth.validate_chain (snd (Quantumeth.add_blocks batches self)))
       = fst (Quantumeth.validate_chain self).
Proof.
  intros batches txs self. split; [apply ChainFacts.add_block_verdict |].
  revert self. induction batches as [|t rest IH]; intros self; [reflexivity |].
  cbn [Quantumeth.add_blocks].
  pose proof (ChainFacts.add_block_verdict t self) as H.
  destruct (Quantumeth.add_block t self) as [[v|e] s1]; cbn [snd] in *.
  - rewrite IH. exact H.
  - exact H.
Qed.

(** X7. What validation does not see. Every contiguous segment of a chain
    that validates validates too, so the loss of the oldest or the newest
    blocks goes unnoticed; and the previous hash of the first block is never
    examined: replacing it leaves the answer as it was. *)
Theorem validate_accepts_segments :
  (forall (self : Quantumeth.QuantumNetwork) (n m : nat),
      fst (Quantumeth.validate_chain self) = Returned true ->
      fst (Quantumeth.validate_chain
             (Quantumeth.set_global_chain self (take m (drop n (Quantumeth.global_chain self)))))
      = Returned true)
  /\ (forall (self : Quantumeth.QuantumNetwork) (b : Quantumeth.Block)
             (rest : list Quantumeth.Block) (prev' : string),
        Quantumeth.global_chain self = b :: rest ->
        fst (Quantumeth.validate_chain
               (Quantumeth.set_global_chain self
                  (Quantumeth.mkBlock (Quantumeth.transactions b) prev' (Quantumeth.hash b)
                   :: rest)))
        = fst (Quantumeth.validate_chain self)).
Proof.
  split.
  - intros self n m H. rewrite QuantumethFacts.validate_chain_linked in *. cbn [fst] in *.
    f_equal. injection H as H. cbn [Quantumeth.set_global_chain Quantumeth.global_chain].
    apply NetworkFacts.linked_b_take, NetworkFacts.linked_b_drop. exact H.
  - intros self b rest prev' Hc. rewrite !QuantumethFacts.validate_chain_linked. cbn [fst].
    f_equal. cbn [Quantumeth.set_global_chain Quantumeth.global_chain]. rewrite Hc.
    apply NetworkFacts.linked_b_first. reflexivity.
Qed.

Lemma validate_accepts_segments_witness :
  fst (Quantumeth.validate_chain
         (Quantumeth.set_global_chain
            (snd (Quantumeth.add_blocks [["a"]; ["b"]; ["c"]; ["d"]]
                    (Quantumeth.QuantumNetwork_init 2 "u")))
            (take 2 (drop 1
               (Quantumeth.global_chain
                  (snd (Quantumeth.add_blocks [["a"]; ["b"]; ["c"]; ["d"]]
                          (Quantumeth.QuantumNetwork_init 2 "u"))))))))
  = Returned true.
Proof.
  apply (proj1 validate_accepts_segments
           (snd (Quantumeth.add_blocks [["a"]; ["b"]; ["c"]; ["d"]]
                   (Quantumeth.QuantumNetwork_init 2 "u"))) 1 2).
  vm_compute. reflexivity.
Defined.

(** X8. The Cosmos file never adds a block. In any state, [add_block] of
    the Cosmos file raises and leaves the network as it was: IndexError when
    the network has no node, and otherwise the AttributeError of the lookup
    of [LocalSimulator] in [braket.circuits], raised inside
    [generate_quantum_hash] before [create_block] builds or appends a block.
    A script of [add_block] calls ends at its first call; on a fresh network
    the canonical chain and the chain of every node stay empty, and
    [validate_chain] returns [True] on the empty chain. *)
Theorem cosmos_add_block_raises_and_adds_nothing :
  forall (result : list (string * nat)) (txs : list string)
         (self : Quantumeth.QuantumNetwork),
    (forall data, Cosmos.generate_quantum_hash result data = Raised Cosmos.no_LocalSimulator)
    /\ (forall node prev, Cosmos.create_block result node txs prev = Raised Cosmos.no_LocalSimulator)
    /\ (Quantumeth.nodes self = [] ->
        Cosmos.add_block result txs self
        = (Raised (IndexError "list index out of range"), self))
    /\ (Quantumeth.nodes self <> [] ->
        Cosmos.add_block result txs self = (Raised Cosmos.no_LocalSimulator, self))
    /\ (forall calls,
          snd (Cosmos.add_blocks calls self) = self
          /\ (calls <> [] -> fst (Cosmos.add_blocks calls self) <> Returned tt))
    /\ (forall calls num_nodes url,
          let net := snd (Cosmos.add_blocks calls (Quantumeth.QuantumNetwork_init num_nodes url)) in
          Quantumeth.global_chain net = []
          /\ Forall (fun node => Quantumeth.chain node = []) (Quantumeth.nodes net)
          /\ Quantumeth.validate_chain net = (Returned true, net)).
Proof.
  intros result txs self.
  split; [reflexivity |]. split; [reflexivity |].
  split; [| split; [| split]].
  - intros H. rewrite cosmos_add_block_outcome, H. reflexivity.
  - intros H. rewrite cosmos_add_block_outcome.
    destruct (Quantumeth.nodes self) as [|node0 rest]; [congruence | reflexivity].
  - intros calls. rewrite ChainFacts.cosmos_add_blocks_run. split; [reflexivity |].
    intros Hc. destruct calls as [|c rest]; [congruence |].
    cbn [fst]. destruct (Quantumeth.nodes self !! 0); discriminate.
  - intros calls n url net. subst net. rewrite ChainFacts.cosmos_add_blocks_run.
    cbn [snd]. rewrite QuantumethFacts.init_state.
    cbn [QuantumethStates.state_of Quantumeth.global_chain Quantumeth.nodes].
    split; [reflexivity |]. split; [| reflexivity].
    unfold QuantumethStates.chain_after, QuantumethStates.replicas. cbn [fold_left].
    destruct n as [|m]; constructor; [reflexivity |].
    apply List.Forall_forall. intros node Hn. apply in_map_iff in Hn.
    destruct Hn as (i & <- & _). reflexivity.
Qed.

Module TamperFacts.
Import Quantumeth Tamper.

Lemma rewritten_last (f : Block -> Block) (c : list Block) (b : Block) :
  alter f (length c) (c ++ [b]) = c ++ [f b].
Proof.
  pose proof (alter_app_r f c [b] 0) as H. rewrite Nat.add_0_r in H. exact H.
Qed.

End TamperFacts.

(** X9. What validation does see. On a chain that validates, replacing the
    previous hash of any block after the first by another string, or the
    hash of any block before the last by another string, makes
    [validate_chain] return [False]; replacing the hash of the last block is
    not noticed. *)
Theorem validate_detects_rewritten_links :
  forall (self : Quantumeth.QuantumNetwork) (i : nat) (b : Quantumeth.Block) (s : string),
    fst (Quantumeth.validate_chain self) = Returned true ->
    Quantumeth.global_chain self !! i = Some b ->
    (0 < i -> s <> Quantumeth.previous_hash b ->
       fst (Quantumeth.validate_chain
              (Tamper.rewrite_block (Tamper.with_previous_hash s) i self)) = Returned false)
    /\ (S i < length (Quantumeth.global_chain self) -> s <> Quantumeth.hash b ->
          fst (Quantumeth.validate_chain
                 (Tamper.rewrite_block (Tamper.with_hash s) i self)) = Returned false)
    /\ (S i = length (Quantumeth.global_chain self) ->
          fst (Quantumeth.validate_chain
                 (Tamper.rewrite_block (Tamper.with_hash s) i self)) = Returned true).
Proof.
  intros self i b s Hvalid Hb.
  rewrite QuantumethFacts.validate_chain_linked in Hvalid. cbn [fst] in Hvalid.
  injection Hvalid as Hvalid. pose proof (proj1 (linked_b_true _ _ _) Hvalid) as Hl.
  unfold Tamper.rewrite_block. rewrite !QuantumethFacts.validate_chain_linked.
  cbn [fst Quantumeth.set_global_chain Quantumeth.global_chain].
  pose proof (lookup_lt_Some _ _ _ Hb) as Hi.
  split; [| split].
  - intros Hpos Hne. f_equal. apply linked_b_false. exists i. split; [exact Hpos |].
    destruct (Quantumeth.global_chain self !! (i - 1)) as [p|] eqn:Hp.
    2:{ apply lookup_ge_None in Hp. lia. }
    exists (Tamper.with_previous_hash s b), p.
    rewrite list_lookup_alter_eq, Hb, list_lookup_alter_ne by lia.
    split; [reflexivity |]. split; [exact Hp |].
    cbn. rewrite <- (Hl i b p Hpos Hb Hp). exact Hne.
  - intros Hnext Hne. f_equal. apply linked_b_false. exists (S i). split; [lia |].
    destruct (Quantumeth.global_chain self !! S i) as [c|] eqn:Hc.
    2:{ apply lookup_ge_None in Hc. lia. }
    exists c, (Tamper.with_hash s b).
    rewrite list_lookup_alter_ne by lia. replace (S i - 1) with i by lia.
    rewrite list_lookup_alter_eq, Hb.
    split; [exact Hc |]. split; [reflexivity |].
    cbn. rewrite (Hl (S i) c b) by (try lia; try assumption; replace (S i - 1) with i by lia; exact Hb).
    intros E. apply Hne. symmetry. exact E.
  - intros Hlast. f_equal. rewrite <- Hvalid.
    assert (exists c, Quantumeth.global_chain self = c ++ [b] /\ i = length c)
      as (c & Hc & ->).
    { exists (take i (Quantumeth.global_chain self)). split.
      - rewrite <- (take_drop i (Quantumeth.global_chain self)) at 1. f_equal.
        rewrite (drop_S _ _ _ Hb), drop_ge by lia. reflexivity.
      - rewrite length_take. lia. }
    rewrite Hc, TamperFacts.rewritten_last, !NetworkFacts.linked_b_snoc. reflexivity.
Qed.

Lemma validate_detects_rewritten_links_witness :
  fst (Quantumeth.validate_chain
         (Tamper.rewrite_block (Tamper.with_hash "ff") 0
            (snd (Quantumeth.add_blocks [["a"]; ["b"]] (Quantumeth.QuantumNetwork_init 1 "u")))))
  = Returned false
  /\ fst (Quantumeth.validate_chain
            (Tamper.rewrite_block (Tamper.with_previous_hash "ff") 1
               (snd (Quantumeth.add_blocks [["a"]; ["b"]] (Quantumeth.QuantumNetwork_init 1 "u")))))
     = Returned false.
Proof.
  split.
  - refine (proj1 (proj2 (validate_detects_rewritten_links
             (snd (Quantumeth.add_blocks [["a"]; ["b"]] (Quantumeth.QuantumNetwork_init 1 "u")))
             0 _ "ff" _ _)) _ _).
    + vm_compute. reflexivity.
    + vm_compute. reflexivity.
    + vm_compute. lia.
    + vm_compute. discriminate.
  - refine (proj1 (validate_detects_rewritten_links
             (snd (Quantumeth.add_blocks [["a"]; ["b"]] (Quantumeth.QuantumNetwork_init 1 "u")))
             1 _ "ff" _ _) _ _).
    + vm_compute. reflexivity.
    + vm_compute. reflexivity.
    + lia.
    + vm_compute. discriminate.
Defined.

(** * Further properties of the optimizer *)

Module CostFacts.
Import Quantumeth SortByHash.

Section WithHash.

Variable h : string -> Z.

Lemma adjacent_cost_cons (a b : string) (l : list string) :
  adjacent_cost h (a :: b :: l) = (Z.abs (h a - h b) + adjacent_cost h (b :: l))%Z.
Proof. reflexivity. Qed.

Lemma adjacent_cost_nonneg (l : list string) : (0 <= adjacent_cost h l)%Z.
Proof.
  induction l as [|a [|b l] IH]; [cbn; lia | cbn; lia |].
  rewrite adjacent_cost_cons. lia.
Qed.

Lemma adjacent_cost_snoc (l : list string) (b : string) :
  adjacent_cost h (l ++ [b])
  = (adjacent_cost h l
     + match last l with Some a => Z.abs (h a - h b) | None => 0 end)%Z.
Proof.
  induction l as [|a [|c l] IH]; [reflexivity | |].
  { cbn [app]. rewrite adjacent_cost_cons. cbn [adjacent_cost last]. lia. }
  change ((a :: c :: l) ++ [b]) with (a :: (c :: l) ++ [b]).
  change ((c :: l) ++ [b]) with (c :: (l ++ [b])) at 1.
  rewrite adjacent_cost_cons.
  change (c :: l ++ [b]) with ((c :: l) ++ [b]).
  rewrite IH, adjacent_cost_cons, last_cons_cons. lia.
Qed.

Lemma adjacent_cost_rev (l : list string) :
  adjacent_cost h (rev l) = adjacent_cost h l.
Proof.
  induction l as [|a [|b l] IH]; [reflexivity | reflexivity |].
  change (rev (a :: b :: l)) with (rev (b :: l) ++ [a]).
  rewrite adjacent_cost_snoc, IH, adjacent_cost_cons.
  replace (last (rev (b :: l))) with (Some b).
  - lia.
  - cbn [rev]. rewrite last_snoc. reflexivity.
Qed.

(** The first element is within the cost of every other element. *)
Lemma head_bound (l : list string) (a x : string) :
  In x (a :: l) -> (Z.abs (h a - h x) <= adjacent_cost h (a :: l))%Z.
Proof.
  revert a. induction l as [|b l IH]; intros a Hx.
  - destruct Hx as [<-|[]]. cbn. lia.
  - rewrite adjacent_cost_cons. destruct Hx as [<-|Hx].
    + pose proof (adjacent_cost_nonneg (b :: l)). lia.
    + specialize (IH b Hx). lia.
Qed.

Lemma pair_bound (l : list string) (x y : string) :
  In x l -> In y l -> (Z.abs (h x - h y) <= adjacent_cost h l)%Z.
Proof.
  induction l as [|a l IH]; intros Hx Hy; [destruct Hx |].
  assert (adjacent_cost h l <= adjacent_cost h (a :: l))%Z as Hmono.
  { destruct l as [|b l]; [cbn; lia |]. rewrite adjacent_cost_cons. lia. }
  destruct Hx as [<-|Hx].
  - apply head_bound. exact Hy.
  - destruct Hy as [<-|Hy].
    + pose proof (head_bound l a x (or_intror Hx)). lia.
    + specialize (IH Hx Hy). lia.
Qed.

Lemma adjacent_cost_zero (l : list string) :
  adjacent_cost h l = 0%Z <-> forall x y, In x l -> In y l -> h x = h y.
Proof.
  split.
  - intros H x y Hx Hy. pose proof (pair_bound l x y Hx Hy). lia.
  - induction l as [|a [|b l] IH]; intros H; [reflexivity | reflexivity |].
    rewrite adjacent_cost_cons, IH.
    + rewrite (H a b) by (cbn; auto). lia.
    + intros x y Hx Hy. apply H; right; assumption.
Qed.

Lemma insert_by_perm (x : string) (l : list string) :
  Permutation (x :: l) (insert_by h x l).
Proof.
  induction l as [|y l IH]; [reflexivity |]. cbn [insert_by].
  destruct (h x <=? h y)%Z; [reflexivity |].
  eapply perm_trans; [apply perm_swap | apply perm_skip, IH].
Qed.

Lemma sort_by_perm (l : list string) : Permutation l (sort_by h l).
Proof.
  induction l as [|x l IH]; [reflexivity |]. cbn [sort_by fold_right].
  eapply perm_trans; [apply perm_skip, IH | apply insert_by_perm].
Qed.

Lemma insert_by_sorted (x : string) (l : list string) :
  Sorted (le_hash h) l -> Sorted (le_hash h) (insert_by h x l).
Proof.
  induction l as [|y l IH]; intros Hs; cbn [insert_by].
  - repeat constructor.
  - destruct (h x <=? h y)%Z eqn:E.
    + apply Z.leb_le in E. constructor; [exact Hs | constructor; exact E].
    + apply Z.leb_gt in E. inversion Hs as [|? ? Hs' Hhd]; subst.
      constructor; [apply IH; exact Hs' |].
      destruct l as [|z l]; cbn [insert_by].
      * constructor. unfold le_hash. lia.
      * destruct (h x <=? h z)%Z; constructor; unfold le_hash.
        -- lia.
        -- inversion Hhd; subst. assumption.
Qed.

Lemma sort_by_sorted (l : list string) : Sorted (le_hash h) (sort_by h l).
Proof.
  induction l as [|x l IH]; [constructor |]. apply insert_by_sorted, IH.
Qed.

Lemma last_default (l : list string) (c a b : string) :
  List.last (c :: l) a = List.last (c :: l) b.
Proof.
  revert c. induction l as [|d l IH]; intros c; [reflexivity |].
  change (List.last (d :: l) a = List.last (d :: l) b). apply IH.
Qed.

Lemma last_cons_default (l : list string) (a b : string) :
  List.last (b :: l) a = List.last l b.
Proof.
  destruct l as [|c l]; [reflexivity |].
  change (List.last (c :: l) a = List.last (c :: l) b). apply last_default.
Qed.

Lemma last_in (l : list string) (a : string) : In (List.last l a) (a :: l).
Proof.
  revert a. induction l as [|b l IH]; intros a; [left; reflexivity |].
  right. rewrite last_cons_default. apply IH.
Qed.

(** Along a list sorted by hash the distances add up to last minus first. *)
Lemma sorted_cost (l : list string) (a : string) :
  Sorted (le_hash h) (a :: l) ->
  adjacent_cost h (a :: l) = (h (List.last l a) - h a)%Z.
Proof.
  revert a. induction l as [|b l IH]; intros a Hs; [cbn; lia |].
  inversion Hs as [|? ? Hs' Hhd]; subst. inversion Hhd as [|? ? Hab]; subst.
  unfold le_hash in Hab. rewrite adjacent_cost_cons, (IH b Hs').
  rewrite last_cons_default. lia.
Qed.

Lemma sorted_cost_bound (l best : list string) :
  Sorted (le_hash h) l -> (forall x, In x l -> In x best) ->
  (adjacent_cost h l <= adjacent_cost h best)%Z.
Proof.
  intros Hs Hin. destruct l as [|a l]; [apply adjacent_cost_nonneg |].
  rewrite (sorted_cost l a Hs).
  pose proof (last_in l a) as Hlast.
  pose proof (pair_bound best a (List.last l a)
                (Hin _ (or_introl eq_refl)) (Hin _ Hlast)). lia.
Qed.

(** The search, as the lemma on its loop gives it. *)
Lemma optimize_spec (txs : list string) :
  let best := optimize_transaction_order h txs in
  Permutation txs best
  /\ (forall p, Permutation txs p -> (calculate_cost h best <= calculate_cost h p)%Z)
  /\ exists k,
       itertools.permutations txs !! k = Some best
       /\ forall j p, j < k -> itertools.permutations txs !! j = Some p ->
                      (calculate_cost h best < calculate_cost h p)%Z.
Proof.
  intros best. subst best. unfold optimize_transaction_order.
  pose proof (OptimizerFacts.optimize_loop h txs (itertools.permutations txs)) as H.
  destruct (fold_left (optimize_step h) (itertools.permutations txs) (txs, None))
    as [best [c|]]; cbn [fst].
  - destruct H as (Hc & k & Hk & Hmin & Hfirst). rewrite <- Hc. split.
    + apply ItertoolsFacts.permutations_spec, list_elem_of_In, list_elem_of_lookup.
      exists k. exact Hk.
    + split.
      * intros p Hp. apply ItertoolsFacts.permutations_spec in Hp.
        apply list_elem_of_In, list_elem_of_lookup in Hp. destruct Hp as [j Hj].
        exact (Hmin j p Hj).
      * exists k. split; [exact Hk | exact Hfirst].
  - destruct H as [Hnil _]. exfalso.
    pose proof (ItertoolsFacts.length_permutations txs) as Hlen.
    rewrite Hnil in Hlen. cbn [length] in Hlen. pose proof (lt_O_fact (length txs)). lia.
Qed.

(** The input order is the first candidate. *)
Lemma perms_first {A} (r : nat) (l : list A) :
  length l = r -> itertools.perms r l !! 0 = Some l.
Proof.
  revert l. induction r as [|r IH]; intros l Hl.
  - destruct l; [reflexivity | discriminate].
  - destruct l as [|x l]; [discriminate |]. injection Hl as Hl.
    cbn [itertools.perms itertools.picks flat_map fst snd].
    specialize (IH l Hl). destruct (itertools.perms r l) as [|p ps]; [discriminate |].
    cbn in IH |- *. congruence.
Qed.

Lemma optimal_kept (txs : list string) :
  (forall p, Permutation txs p -> (calculate_cost h txs <= calculate_cost h p)%Z) ->
  optimize_transaction_order h txs = txs.
Proof.
  intros Hopt. destruct (optimize_spec txs) as (Hperm & Hmin & k & Hk & Hfirst).
  pose proof (perms_first (length txs) txs eq_refl) as H0.
  fold (itertools.permutations txs) in H0.
  destruct k as [|k]; [congruence |].
  specialize (Hfirst 0 txs ltac:(lia) H0). specialize (Hopt _ Hperm). lia.
Qed.

Lemma optimal_cost_sorted (txs : list string) :
  calculate_cost h (optimize_transaction_order h txs) = calculate_cost h (sort_by h txs).
Proof.
  destruct (optimize_spec txs) as (Hperm & Hmin & _).
  apply Z.le_antisymm; [apply Hmin, sort_by_perm |].
  rewrite !OptimizerFacts.calculate_cost_adjacent.
  apply sorted_cost_bound; [apply sort_by_sorted |].
  intros x Hx. eapply Permutation_in; [exact Hperm |].
  eapply Permutation_in; [symmetry; apply sort_by_perm | exact Hx].
Qed.

Lemma sort_by_cost_perm (l l' : list string) :
  Permutation l l' -> adjacent_cost h (sort_by h l) = adjacent_cost h (sort_by h l').
Proof.
  intros Hp. apply Z.le_antisymm; apply sorted_cost_bound;
    try apply sort_by_sorted; intros x Hx.
  - eapply Permutation_in; [apply sort_by_perm |].
    eapply Permutation_in; [exact Hp |].
    eapply Permutation_in; [symmetry; apply sort_by_perm | exact Hx].
  - eapply Permutation_in; [apply sort_by_perm |].
    eapply Permutation_in; [symmetry; exact Hp |].
    eapply Permutation_in; [symmetry; apply sort_by_perm | exact Hx].
Qed.

End WithHash.

End CostFacts.

(** X10. The cost of an order. [calculate_cost] gives an order and its
    reverse the same cost, is never negative, is at least the distance
    between the hashes of any two of its elements, and is zero exactly when
    all elements hash alike. *)
Theorem cost_is_symmetric_and_bounds_every_pair :
  forall (h : string -> Z) (order : list string),
    Quantumeth.calculate_cost h (rev order) = Quantumeth.calculate_cost h order
    /\ (0 <= Quantumeth.calculate_cost h order)%Z
    /\ (forall x y, In x order -> In y order ->
          (Z.abs (h x - h y) <= Quantumeth.calculate_cost h order)%Z)
    /\ (Quantumeth.calculate_cost h order = 0%Z
        <-> forall x y, In x order -> In y order -> h x = h y).
Proof.
  intros h order. rewrite !OptimizerFacts.calculate_cost_adjacent.
  split; [apply CostFacts.adjacent_cost_rev |].
  split; [apply CostFacts.adjacent_cost_nonneg |].
  split; [intros x y; apply CostFacts.pair_bound | apply CostFacts.adjacent_cost_zero].
Qed.

(** X11. The search costs what sorting costs. The order returned by
    [optimize_transaction_order] has the cost of the input sorted by hash,
    which is the largest hash minus the smallest; no two elements of the
    input are further apart in hash than that cost; and permuting the input
    does not change the cost of the result. *)
Theorem optimize_costs_what_sorting_costs :
  forall (h : string -> Z) (txs : list string),
    let best := Quantumeth.optimize_transaction_order h txs in
    Quantumeth.calculate_cost h best = Quantumeth.calculate_cost h (SortByHash.sort_by h txs)
    /\ (forall a rest,
          SortByHash.sort_by h txs = a :: rest ->
          Quantumeth.calculate_cost h best = (h (List.last rest a) - h a)%Z)
    /\ (forall x y, In x txs -> In y txs ->
          (Z.abs (h x - h y) <= Quantumeth.calculate_cost h best)%Z)
    /\ (forall txs',
          Permutation txs txs' ->
          Quantumeth.calculate_cost h (Quantumeth.optimize_transaction_order h txs')
          = Quantumeth.calculate_cost h best).
Proof.
  intros h txs best. subst best.
  pose proof (CostFacts.optimal_cost_sorted h txs) as Hs.
  split; [exact Hs |]. split; [| split].
  - intros a rest Hsort. rewrite Hs, Hsort, OptimizerFacts.calculate_cost_adjacent.
    apply CostFacts.sorted_cost. rewrite <- Hsort. apply CostFacts.sort_by_sorted.
  - intros x y Hx Hy. rewrite OptimizerFacts.calculate_cost_adjacent.
    destruct (CostFacts.optimize_spec h txs) as (Hperm & _).
    apply CostFacts.pair_bound; eapply Permutation_in; eassumption.
  - intros txs' Hp. rewrite Hs, (CostFacts.optimal_cost_sorted h txs').
    rewrite !OptimizerFacts.calculate_cost_adjacent.
    apply CostFacts.sort_by_cost_perm. symmetry. exact Hp.
Qed.

(** X12. An optimal order is kept. When no permutation of the input costs
    less than the input itself, in particular when the input is sorted by
    hash, [optimize_transaction_order] returns the input unchanged; applying
    it twice is applying it once; the result has the length of the input. *)
Theorem optimize_keeps_an_optimal_order :
  forall (h : string -> Z) (txs : list string),
    ((forall p, Permutation txs p ->
        (Quantumeth.calculate_cost h txs <= Quantumeth.calculate_cost h p)%Z) ->
     Quantumeth.optimize_transaction_order h txs = txs)
    /\ (SortByHash.sort_by h txs = txs -> Quantumeth.optimize_transaction_order h txs = txs)
    /\ Quantumeth.optimize_transaction_order h (Quantumeth.optimize_transaction_order h txs)
       = Quantumeth.optimize_transaction_order h txs
    /\ length (Quantumeth.optimize_transaction_order h txs) = length txs.
Proof.
  intros h txs. destruct (CostFacts.optimize_spec h txs) as (Hperm & Hmin & _).
  split; [apply CostFacts.optimal_kept |]. split; [| split].
  - intros Hsorted. apply CostFacts.optimal_kept. intros p Hp.
    rewrite <- Hsorted at 1. rewrite <- CostFacts.optimal_cost_sorted. apply Hmin, Hp.
  - apply CostFacts.optimal_kept. intros p Hp. apply Hmin.
    eapply perm_trans; eassumption.
  - symmetry. apply Permutation_length. exact Hperm.
Qed.

Lemma optimize_keeps_an_optimal_order_witness :
  Quantumeth.optimize_transaction_order (fun s => Z.of_nat (String.length s))
    ["b"; "cc"; "aaa"; "dddd"]
  = ["b"; "cc"; "aaa"; "dddd"].
Proof.
  apply (proj1 (proj2 (optimize_keeps_an_optimal_order
                         (fun s => Z.of_nat (String.length s)) ["b"; "cc"; "aaa"; "dddd"]))).
  reflexivity.
Defined.

(** X13. Optimize, then seal, as the scripts do. On a network with at least
    one node, in any state reached by [add_block] calls, adding the
    optimized batch appends one block whose transactions are a permutation
    of the batch of least cost, and the chain validates. *)
Theorem optimized_batch_is_sealed :
  forall (h : string -> Z) (m : nat) (url : string) (batches : list (list string))
         (txs : list string),
    let s := snd (Quantumeth.add_blocks batches (Quantumeth.QuantumNetwork_init (S m) url)) in
    let s' := snd (Quantumeth.add_block (Quantumeth.optimize_transaction_order h txs) s) in
    exists b,
      Quantumeth.global_chain s' = Quantumeth.global_chain s ++ [b]
      /\ Permutation txs (Quantumeth.transactions b)
      /\ (forall p, Permutation txs p ->
            (Quantumeth.calculate_cost h (Quantumeth.transactions b)
             <= Quantumeth.calculate_cost h p)%Z)
      /\ Quantumeth.validate_chain s' = (Returned true, s').
Proof.
  intros h m url batches txs s s'. subst s' s.
  rewrite QuantumethFacts.init_state, QuantumethFacts.add_blocks_state.
  cbn [snd]. rewrite QuantumethFacts.add_block_state. cbn [snd].
  destruct (CostFacts.optimize_spec h txs) as (Hperm & Hmin & _).
  eexists. split; [reflexivity |]. split; [exact Hperm |]. split; [exact Hmin |].
  rewrite QuantumethFacts.validate_chain_linked. do 2 f_equal.
  apply linked_b_true. cbn [QuantumethStates.state_of Quantumeth.global_chain].
  apply linked_snoc; [apply QuantumethFacts.chain_after_linked, linked_nil |].
  intros l Hl. unfold QuantumethStates.previous_hash_for. rewrite Hl. reflexivity.
Qed.

(** * Further properties of qtp.py, the ledger operations and the digests *)

Module QtpMore.
Import Qtp QtpSpec.

Lemma uniform_add_blocks (batches : list (list string)) (self : QuantumBlockchain) :
  uniform (chain self) -> uniform (chain (snd (add_blocks batches self))).
Proof.
  revert self. induction batches as [|txs rest IH]; intros self Hu; [exact Hu |].
  cbn [add_blocks add_block]. apply IH. cbn [chain]. destruct Hu as [Hh Hp].
  split.
  - apply Forall_app. split; [exact Hh |]. constructor; [| constructor].
    unfold H, QuantumBlock_init, generate_hash. cbn [hash]. reflexivity.
  - destruct (chain self) as [|b0 c] eqn:Hc; [constructor |].
    cbn [tail app] in *. apply Forall_app. split; [exact Hp |].
    constructor; [| constructor]. cbn [previous_hash QuantumBlock_init].
    rewrite List.Forall_forall in Hh.
    destruct (last (b0 :: c)) as [l|] eqn:Hl.
    + apply Hh. apply list_elem_of_In. apply last_Some_elem_of. exact Hl.
    + apply last_None in Hl. discriminate.
Qed.

Lemma uniform_linked (b0 : QuantumBlock) (rest : list QuantumBlock) :
  hash b0 = H ->
  Forall (fun b => hash b = H /\ previous_hash b = H) rest ->
  linked_b previous_hash hash (b0 :: rest) = true.
Proof.
  revert b0. induction rest as [|b rest IH]; intros b0 H0 Hr; [reflexivity |].
  inversion Hr as [|? ? [Hh Hp] Hr']; subst.
  change (bool_decide (previous_hash b = hash b0) && linked_b previous_hash hash (b :: rest) = true).
  rewrite bool_decide_eq_true_2 by congruence. apply IH; assumption.
Qed.

End QtpMore.

(** X14. Validation in qtp.py is blind to rearrangement. Take any chain built
    by [add_block] calls on a fresh blockchain; any list that starts with one of its blocks and
    goes on with blocks taken from after its first one, in any order, with
    repeats or omissions, passes [is_valid]. *)
Theorem qtp_is_valid_accepts_rearranged_blocks :
  forall (batches : list (list string)) (b0 : Qtp.QuantumBlock) (rest : list Qtp.QuantumBlock),
    In b0 (Qtp.chain (snd (Qtp.add_blocks batches Qtp.QuantumBlockchain_init))) ->
    (forall b, In b rest ->
               In b (tail (Qtp.chain (snd (Qtp.add_blocks batches Qtp.QuantumBlockchain_init))))) ->
    Qtp.is_valid (Qtp.mkQuantumBlockchain (b0 :: rest))
    = (Returned true, Qtp.mkQuantumBlockchain (b0 :: rest)).
Proof.
  intros batches b0 rest H0 Hrest.
  destruct (QtpMore.uniform_add_blocks batches Qtp.QuantumBlockchain_init) as [Hh Hp].
  { split; constructor. }
  rewrite List.Forall_forall in Hh, Hp.
  rewrite QtpFacts.is_valid_linked. cbn [Qtp.chain]. do 2 f_equal.
  apply QtpMore.uniform_linked; [apply Hh, H0 |].
  apply List.Forall_forall. intros b Hb. specialize (Hrest b Hb). split.
  - apply Hh. destruct (Qtp.chain _) as [|x c]; [destruct Hrest | right; exact Hrest].
  - apply Hp, Hrest.
Qed.

Lemma qtp_is_valid_accepts_rearranged_blocks_witness :
  Qtp.is_valid
    (Qtp.mkQuantumBlockchain
       [Qtp.QuantumBlock_init ["pay 1"] genesis_hash;
        Qtp.QuantumBlock_init ["pay 3"] QtpSpec.H;
        Qtp.QuantumBlock_init ["pay 3"] QtpSpec.H;
        Qtp.QuantumBlock_init ["pay 2"] QtpSpec.H])
  = (Returned true,
     Qtp.mkQuantumBlockchain
       [Qtp.QuantumBlock_init ["pay 1"] genesis_hash;
        Qtp.QuantumBlock_init ["pay 3"] QtpSpec.H;
        Qtp.QuantumBlock_init ["pay 3"] QtpSpec.H;
        Qtp.QuantumBlock_init ["pay 2"] QtpSpec.H]).
Proof.
  apply (qtp_is_valid_accepts_rearranged_blocks [["pay 1"]; ["pay 2"]; ["pay 3"]]).
  - left. vm_compute. reflexivity.
  - intros b [<-|[<-|[<-|[]]]].
    + right. left. vm_compute. reflexivity.
    + right. left. vm_compute. reflexivity.
    + left. vm_compute. reflexivity.
Defined.

(** ** Deployment *)

Section DeployFacts.

Variables World Factory Constructor Tx SignedTx TxHash : Type.
Variable contract_factory : string -> string -> World -> Quantumeth.reply Factory * World.
Variable constructor :
  Factory -> string -> string -> Z -> World -> Quantumeth.reply Constructor * World.
Variable get_transaction_count : string -> World -> Quantumeth.reply Z * World.
Variable gas_price : World -> Quantumeth.reply Z * World.
Variable estimate_gas : Tx -> World -> Quantumeth.reply Z * World.
Variable build_transfer :
  Quantumeth.Contract -> string -> Z -> Quantumeth.TxParams -> World -> Quantumeth.reply Tx * World.
Variable build_transaction :
  Constructor -> Quantumeth.TxParams -> World -> Quantumeth.reply Tx * World.
Variable sign_transaction : Tx -> string -> World -> Quantumeth.reply SignedTx * World.
Variable send_raw_transaction : SignedTx -> World -> Quantumeth.reply TxHash * World.
Variable wait_for_transaction_receipt : TxHash -> World -> Quantumeth.reply string * World.
Variable contract_at : string -> string -> World -> Quantumeth.reply unit * World.

Local Abbreviation deploy_erc20_contract :=
  (Quantumeth.deploy_erc20_contract contract_factory constructor get_transaction_count
     build_transaction sign_transaction send_raw_transaction wait_for_transaction_receipt
     contract_at).
Local Abbreviation deploy_calls :=
  (Quantumeth.deploy_calls contract_factory constructor get_transaction_count
     build_transaction sign_transaction send_raw_transaction wait_for_transaction_receipt
     contract_at).
Local Abbreviation create_transaction :=
  (Quantumeth.create_transaction get_transaction_count gas_price estimate_gas
     build_transfer sign_transaction send_raw_transaction).
Local Abbreviation transfer_erc20 :=
  (Quantumeth.transfer_erc20 get_transaction_count build_transfer
     sign_transaction send_raw_transaction).




End DeployFacts.


(** ** submit_to_solana *)

Section SolanaFacts.

Variables World Account PubKey Response : Type.
Variable new_account : World -> Account * World.
Variable public_key : Account -> PubKey.
Variable randint_1_10 : World -> Z * World.
Variable send_transaction :
  Solana.TransferTx PubKey -> Account -> World -> Quantumeth.reply Response * World.

Local Abbreviation submit_to_solana :=
  (Solana.submit_to_solana new_account public_key randint_1_10 send_transaction).
Local Abbreviation submit_one :=
  (Solana.submit_one new_account public_key randint_1_10 send_transaction).

Lemma submit_one_blind (t1 t2 : string) (w : World) : submit_one t1 w = submit_one t2 w.
Proof. reflexivity. Qed.

(** X16. [submit_to_solana] ignores the texts of the transactions: on two
    lists of the same length, from the same outside state, it makes the same
    calls and ends the same way. *)
Theorem submit_to_solana_ignores_the_texts :
  forall (t1 t2 : list string) (w : World),
    length t1 = length t2 -> submit_to_solana t1 w = submit_to_solana t2 w.
Proof.
  induction t1 as [|a t1 IH]; intros [|b t2] w Hlen; try discriminate; [reflexivity |].
  cbn [Solana.submit_to_solana]. rewrite (submit_one_blind a b).
  destruct (submit_one b w) as [[v|e] w']; [| reflexivity].
  apply IH. injection Hlen as Hlen. exact Hlen.
Qed.

End SolanaFacts.

Lemma submit_to_solana_ignores_the_texts_witness :
  StubSolana.submit_to_solana ["Alice pays Bob 10 QBTC"; "Bob pays Charlie 5 QBTC"] 0
  = StubSolana.submit_to_solana ["x"; ""] 0.
Proof.
  exact (submit_to_solana_ignores_the_texts _ _ _ _
           StubSolana.new_account StubSolana.public_key StubSolana.randint_1_10
           StubSolana.send_transaction
           ["Alice pays Bob 10 QBTC"; "Bob pays Charlie 5 QBTC"] ["x"; ""] 0 eq_refl).
Defined.

Module DigestFacts.

Lemma length_string_append (a b : string) :
  String.length (a +:+ b) = String.length a + String.length b.
Proof.
  induction a as [|c a IH]; [reflexivity |].
  change (S (String.length (a +:+ b)) = S (String.length a + String.length b)).
  f_equal. exact IH.
Qed.

Lemma length_string_of_list (l : list ascii) :
  String.length (string_of_list_ascii l) = length l.
Proof.
  induction l as [|c l IH]; [reflexivity |].
  change (S (String.length (string_of_list_ascii l)) = S (length l)).
  f_equal. exact IH.
Qed.

Lemma length_concat_const (k : nat) (l : list string) :
  Forall (fun s => String.length s = k) l ->
  String.length (String.concat "" l) = length l * k.
Proof.
  induction l as [|s l IH]; intros H; [reflexivity |].
  inversion H as [|? ? Hs Hl]; subst. specialize (IH Hl).
  destruct l as [|t l].
  - cbn. lia.
  - change (String.concat "" (s :: t :: l)) with (s +:+ "" +:+ String.concat "" (t :: l)).
    rewrite !length_string_append, IH. cbn [String.length length]. lia.
Qed.

Lemma length_round (st : list Z) (kw : Z * Z) :
  length st = 8 -> length (Sha256.round st kw) = 8.
Proof.
  intros H.
  destruct st as [|a [|b [|c [|d [|e [|f [|g [|h [|i st]]]]]]]]]; try discriminate H.
  reflexivity.
Qed.

Lemma length_rounds (kws : list (Z * Z)) (st : list Z) :
  length st = 8 -> length (fold_left Sha256.round kws st) = 8.
Proof.
  revert st. induction kws as [|kw kws IH]; intros st H; [exact H |].
  cbn [fold_left]. apply IH, length_round, H.
Qed.

Lemma length_compress (hs block : list Z) :
  length hs = 8 -> length (Sha256.compress hs block) = 8.
Proof.
  intros H. unfold Sha256.compress.
  rewrite length_map, length_combine, length_rounds, H by exact H. reflexivity.
Qed.

Lemma length_digest_words (msg : list Z) : length (Sha256.digest_words msg) = 8.
Proof.
  unfold Sha256.digest_words.
  generalize (Sha256.chunks (length (Sha256.pad msg)) 64 (Sha256.pad msg)) as blocks.
  assert (length Sha256.H0 = 8) as H0 by reflexivity. revert H0.
  generalize Sha256.H0 as hs. intros hs H0 blocks. revert hs H0.
  induction blocks as [|b blocks IH]; intros hs H0; [exact H0 |].
  cbn [fold_left]. apply IH, length_compress, H0.
Qed.

Lemma length_hex_of_word (x : Z) : String.length (Sha256.hex_of_word x) = 8.
Proof. unfold Sha256.hex_of_word. rewrite length_string_of_list, length_map. reflexivity. Qed.

Lemma length_hexdigest (s : string) : String.length (sha256_hexdigest s) = 64.
Proof.
  unfold sha256_hexdigest, Sha256.hexdigest.
  rewrite (length_concat_const 8).
  - rewrite length_map, length_digest_words. reflexivity.
  - apply List.Forall_forall. intros t Ht. apply in_map_iff in Ht.
    destruct Ht as (x & <- & _). apply length_hex_of_word.
Qed.

Import Quantumeth QuantumethStates DigestSpec.

Lemma wide_chain_after (batches : list (list string)) (G : list Block) :
  Forall wide G -> Forall wide (chain_after G batches).
Proof.
  revert G. induction batches as [|txs rest IH]; intros G HG; [exact HG |].
  cbn [chain_after fold_left]. apply IH. apply Forall_app. split; [exact HG |].
  constructor; [| constructor]. split; [apply length_hexdigest |].
  cbn [sealed previous_hash]. unfold previous_hash_for.
  destruct (last G) as [l|] eqn:Hl; [| reflexivity].
  rewrite List.Forall_forall in HG. apply HG.
  apply list_elem_of_In, last_Some_elem_of, Hl.
Qed.

End DigestFacts.

(** X17. Digests are 64 characters. [sha256_hexdigest] always returns 64
    characters, so every block made by [create_block] of Quantumeth.py and
    every [QuantumBlock] of qtp.py has a hash as wide as the genesis previous
    hash, and in a chain grown from a fresh network every hash and every
    previous hash is 64 characters long. *)
Theorem digests_are_64_characters :
  (forall s, String.length (sha256_hexdigest s) = 64)
  /\ (forall (self : Quantumeth.QuantumNode) txs prev,
        String.length (Quantumeth.hash (fst (Quantumeth.create_block self txs prev))) = 64)
  /\ (forall txs prev, String.length (Qtp.hash (Qtp.QuantumBlock_init txs prev)) = 64)
  /\ forall (m : nat) (url : string) (batches : list (list string)),
       Forall (fun b => String.length (Quantumeth.hash b) = 64
                        /\ String.length (Quantumeth.previous_hash b) = 64)
              (Quantumeth.global_chain
                 (snd (Quantumeth.add_blocks batches (Quantumeth.QuantumNetwork_init (S m) url)))).
Proof.
  split; [apply DigestFacts.length_hexdigest |].
  split; [intros; apply DigestFacts.length_hexdigest |].
  split; [intros; apply DigestFacts.length_hexdigest |].
  intros m url batches.
  rewrite QuantumethFacts.init_state, QuantumethFacts.add_blocks_state.
  cbn [snd QuantumethStates.state_of Quantumeth.global_chain].
  apply (DigestFacts.wide_chain_after batches []). constructor.
Qed.
